(** * apyate: restoring files disguised by Apate

    A shallow embedding of [ApateDecryptor] (src/apyate.py): the byte
    helpers [bytes_to_int] and [reverse_byte_array], the in-place
    restoration [reveal_file] and the path helper [remove_mp4_extension].

    Conventions of the embedding:
    - a file is the list of its bytes; the file system maps a path to a node;
    - the open file object of [reveal_file] is a state (contents, position,
      printed lines, operations performed) threaded through a small
      state-and-exception monad;
    - Python integers are [Z]; list offsets are [Z.to_nat] of them;
    - paths follow [pathlib.PurePosixPath] as CPython 3.12 implements it
      (separator [/], no drive); strings are sequences of one-byte
      characters;
    - a path string names the node stored under that very string; the
      batch functions hand on paths in normal form, for which this is what
      the operating system does;
    - the console is the list of lines printed, the keyboard the list of
      lines still to be typed. *)

From Stdlib Require Import ZArith Lia List String Ascii.
From Stdlib Require Import Strings.Byte.
From stdpp Require Import base list gmap strings.

Local Open Scope Z_scope.

(** ** Bytes *)

Module Bytes.

(** The value of a byte, as Python's [bytes] indexing gives it. *)
Definition byte_val (b : byte) : Z := Z.of_N (Byte.to_N b).

(** [len(b)] as a Python integer. *)
Definition len {A : Type} (l : list A) : Z := Z.of_nat (length l).

(** [b[i:]] and [b[:n]] for non-negative Python integers. *)
Definition skip {A : Type} (i : Z) (l : list A) : list A := drop (Z.to_nat i) l.
Definition first_n {A : Type} (n : Z) (l : list A) : list A := take (Z.to_nat n) l.

(** [bytes(n)]: n zero bytes (what the operating system puts in a hole). *)
Definition zeros (n : Z) : list byte := replicate (Z.to_nat n) x00.

End Bytes.
Import Bytes.

(** ** The decryptor's byte helpers *)

(** [self.mask_length_indicator_length = 4] (line 9). *)
Definition mask_length_indicator_length : Z := 4.

(** [struct.unpack('<I', byte_data)[0]] (line 13): the little-endian
    unsigned 32-bit value of exactly four bytes; [struct.error] (here
    [None]) for any other length. *)
Definition bytes_to_int (byte_data : list byte) : option Z :=
  match byte_data with
  | [b0; b1; b2; b3] =>
      Some (byte_val b0 + 256 * byte_val b1
            + 65536 * byte_val b2 + 16777216 * byte_val b3)
  | _ => None
  end.

(** [bytes(reversed(buffer))] (line 17). *)
Definition reverse_byte_array (buffer : list byte) : list byte := reverse buffer.

(** ** The open file object *)

(** Exceptions the modelled calls can raise; all are subclasses of
    [Exception], so the handler of line 87 catches each of them. *)
Inductive exn : Type :=
| OSError            (* seek before the start of the file, negative truncate *)
| ValueError         (* negative absolute seek position *)
| StructError        (* struct.unpack on a buffer that is not 4 bytes *)
| IsADirectoryError. (* open() on a directory *)

(** One constructor per [print] of [reveal_file], in source order. *)
Inductive report : Type :=
| NotFound                           (* line 32 *)
| TooSmall                           (* line 40 *)
| TrailerReadError                   (* line 49 *)
| InvalidMaskLength (mask_head_length file_size : Z)   (* line 57 *)
| InvalidHeaderOffset (original_head_position : Z)    (* line 64 *)
| HeaderReadError                    (* line 72 *)
| DecryptError (e : exn).            (* line 88 *)

(** The [whence] argument of [seek]: 0, 1 and 2. *)
Inductive whence : Type := SEEK_SET | SEEK_CUR | SEEK_END.

(** The calls made on the file object, recorded in the order they happen. *)
Inductive file_op : Type :=
| OpSeek (offset : Z) (w : whence)
| OpRead (size : Z)
| OpWrite (data : list byte)
| OpTruncate (size : Z).

Record fstate : Type := mkF {
  contents : list byte;     (* the bytes of the file *)
  position : Z;             (* the stream position of the file object *)
  printed : list report;    (* lines printed so far, oldest first *)
  performed : list file_op  (* calls made so far, oldest first *)
}.

Module FileM.

(** A computation over the open file: it returns a value or raises. *)
Definition M (A : Type) : Type := fstate -> (exn + A) * fstate.

Definition ret {A} (a : A) : M A := fun s => (inr a, s).
Definition raise {A} (e : exn) : M A := fun s => (inl e, s).
Definition bind {A B} (m : M A) (k : A -> M B) : M B :=
  fun s => match m s with
           | (inr a, s') => k a s'
           | (inl e, s') => (inl e, s')
           end.

Definition record_op (o : file_op) : M unit :=
  fun s => (inr tt, mkF (contents s) (position s) (printed s) (performed s ++ [o])).

Definition print (r : report) : M unit :=
  fun s => (inr tt, mkF (contents s) (position s) (printed s ++ [r]) (performed s)).

Definition set_position (p : Z) : M unit :=
  fun s => (inr tt, mkF (contents s) p (printed s) (performed s)).

Definition set_contents (d : list byte) : M unit :=
  fun s => (inr tt, mkF d (position s) (printed s) (performed s)).

Definition get : M fstate := fun s => (inr s, s).

(** An optional value, raising [e] when it is absent. *)
Definition expect {A} (e : exn) (o : option A) : M A :=
  match o with Some a => ret a | None => raise e end.

End FileM.
Import FileM.

Notation "x <- m ;; k" := (bind m (fun x => k))
  (at level 100, m at next level, right associativity).
Notation "m ;; k" := (bind m (fun _ => k))
  (at level 100, right associativity).

(** [f.seek(offset, whence)]: an absolute position must not be negative
    ([ValueError]); a relative one must not land before the start
    ([OSError], EINVAL). Seeking past the end is allowed. *)
Definition f_seek (offset : Z) (w : whence) : M unit :=
  record_op (OpSeek offset w) ;;
  s <- get ;;
  match w with
  | SEEK_SET => if offset <? 0 then raise ValueError else set_position offset
  | SEEK_CUR =>
      if position s + offset <? 0 then raise OSError
      else set_position (position s + offset)
  | SEEK_END =>
      if len (contents s) + offset <? 0 then raise OSError
      else set_position (len (contents s) + offset)
  end.

(** [f.read(size)]: up to [size] bytes from the position (fewer only at the
    end of the file), everything to the end for a negative [size]; the
    position advances by what was read. *)
Definition f_read (size : Z) : M (list byte) :=
  record_op (OpRead size) ;;
  s <- get ;;
  let rest := skip (position s) (contents s) in
  let got := if size <? 0 then rest else first_n size rest in
  set_position (position s + len got) ;;
  ret got.

(** [f.write(data)]: overwrites from the position, extending the file when
    the data runs past its end (a position beyond the end leaves a hole of
    zero bytes); the position advances by [len(data)]. *)
Definition f_write (data : list byte) : M unit :=
  record_op (OpWrite data) ;;
  s <- get ;;
  let old := contents s in
  let p := position s in
  set_contents (first_n p old ++ zeros (p - len old) ++ data
                ++ skip (p + len data) old) ;;
  set_position (p + len data).

(** [f.truncate(size)]: cuts or zero-extends the file to [size] bytes; the
    position does not move. *)
Definition f_truncate (size : Z) : M unit :=
  record_op (OpTruncate size) ;;
  s <- get ;;
  if size <? 0 then raise OSError
  else set_contents (first_n size (contents s) ++ zeros (size - len (contents s))).

(** ** The file system *)

(** What a path can name: a regular file with its bytes, or a directory
    (of which only the size that [stat] reports matters here). *)
Inductive node : Type :=
| RegularFile (data : list byte)
| Directory (reported_size : Z).

(** [Path.stat().st_size]. *)
Definition st_size (n : node) : Z :=
  match n with
  | RegularFile data => len data
  | Directory reported_size => reported_size
  end.

(** [open(file_path, 'rb+')] on an existing node. *)
Definition open_rb_plus (n : node) : exn + fstate :=
  match n with
  | RegularFile data => inr (mkF data 0 [] [])
  | Directory _ => inl IsADirectoryError
  end.

(** What a call of [reveal_file] leaves behind. *)
Record outcome : Type := mkOutcome {
  returned : bool;                  (* the value returned *)
  reports : list report;            (* what it printed *)
  file_ops : list file_op;          (* what it did to the open file *)
  files_after : gmap string node    (* the file system afterwards *)
}.

(** ** reveal_file *)

(** The body of the [with] block (lines 44-83), for the size [file_size]
    that [stat] reported before the file was opened. *)
Definition reveal_opened (file_size : Z) : M bool :=
  f_seek (- mask_length_indicator_length) SEEK_END ;;
  mask_length_bytes <- f_read mask_length_indicator_length ;;
  if negb (len mask_length_bytes =? mask_length_indicator_length) then
    print TrailerReadError ;; ret false
  else
  mask_head_length <- expect StructError (bytes_to_int mask_length_bytes) ;;
  if (mask_head_length <=? 0)
     || (mask_head_length >=? file_size - mask_length_indicator_length) then
    print (InvalidMaskLength mask_head_length file_size) ;; ret false
  else
  let original_head_position :=
    file_size - mask_length_indicator_length - mask_head_length in
  if (original_head_position <? 0) || (original_head_position >=? file_size) then
    print (InvalidHeaderOffset original_head_position) ;; ret false
  else
  f_seek original_head_position SEEK_SET ;;
  original_head <- f_read mask_head_length ;;
  if negb (len original_head =? mask_head_length) then
    print HeaderReadError ;; ret false
  else
  let new_file_size := file_size - mask_head_length - mask_length_indicator_length in
  f_seek 0 SEEK_SET ;;
  f_write (reverse_byte_array original_head) ;;
  f_truncate new_file_size ;;
  ret true.

(** Leaving the [with] block closes the file: its bytes are what the path
    names from then on, whether the block returned or raised. The handler
    of line 87 turns an exception into a printed line and [False]. *)
Definition close_file (fs : gmap string node) (file_path : string)
    (r : (exn + bool) * fstate) : outcome :=
  let fs' := <[file_path := RegularFile (contents (snd r))]> fs in
  match fst r with
  | inr b => mkOutcome b (printed (snd r)) (performed (snd r)) fs'
  | inl e =>
      mkOutcome false (printed (snd r) ++ [DecryptError e]) (performed (snd r)) fs'
  end.

(** [reveal_file] (lines 19-89). *)
Definition reveal_file (fs : gmap string node) (file_path : string) : outcome :=
  match fs !! file_path with
  | None => mkOutcome false [NotFound] [] fs
  | Some n =>
      let file_size := st_size n in
      if file_size <=? mask_length_indicator_length then
        mkOutcome false [TooSmall] [] fs
      else
        match open_rb_plus n with
        | inl e => mkOutcome false [DecryptError e] [] fs
        | inr f => close_file fs file_path (reveal_opened file_size f)
        end
  end.

(** The bytes a path names, if it names a regular file. *)
Definition file_bytes (fs : gmap string node) (file_path : string)
    : option (list byte) :=
  match fs !! file_path with
  | Some (RegularFile data) => Some data
  | _ => None
  end.


(** ** Python strings *)

Module PyStr.

Local Open Scope string_scope.

(** [len(s)]. *)
Definition slen (s : string) : Z := Z.of_nat (String.length s).

(** [s[n:]] and [s[:n]] for a natural-number bound. *)
Fixpoint str_drop (n : nat) (s : string) : string :=
  match n, s with
  | O, _ => s
  | S _, EmptyString => EmptyString
  | S n', String _ s' => str_drop n' s'
  end.

Fixpoint str_take (n : nat) (s : string) : string :=
  match n, s with
  | O, _ => EmptyString
  | S _, EmptyString => EmptyString
  | S n', String c s' => String c (str_take n' s')
  end.

(** [s.rfind(c)]: the index of the last occurrence of [c], or -1. *)
Fixpoint rfind (c : ascii) (s : string) : Z :=
  match s with
  | EmptyString => -1
  | String a s' =>
      let r := rfind c s' in
      if (0 <=? r)%Z then 1 + r
      else if Ascii.eqb a c then 0 else -1
  end.

(** [s.split(c)]: the pieces between the occurrences of [c]; one piece,
    the empty string, for the empty string. *)
Fixpoint str_split (c : ascii) (s : string) : list string :=
  match s with
  | EmptyString => [EmptyString]
  | String a s' =>
      if Ascii.eqb a c then EmptyString :: str_split c s'
      else match str_split c s' with
           | piece :: pieces => String a piece :: pieces
           | [] => [String a EmptyString]
           end
  end.

(** [c.join(parts)]. *)
Fixpoint str_join (c : ascii) (parts : list string) : string :=
  match parts with
  | [] => EmptyString
  | [p] => p
  | p :: rest => p ++ String c (str_join c rest)
  end.

(** [c in s] for a one-character [c]. *)
Fixpoint contains (c : ascii) (s : string) : bool :=
  match s with
  | EmptyString => false
  | String a s' => Ascii.eqb a c || contains c s'
  end.

(** [s.startswith(c)] and [s.endswith(c)] for a one-character [c]. *)
Definition startswith (c : ascii) (s : string) : bool :=
  match s with
  | String a _ => Ascii.eqb a c
  | EmptyString => false
  end.

Fixpoint endswith (c : ascii) (s : string) : bool :=
  match s with
  | EmptyString => false
  | String a EmptyString => Ascii.eqb a c
  | String _ s' => endswith c s'
  end.

(** [s.lower()] on the letters A-Z; other characters are kept. Python
    also lowers letters outside ASCII, none of which becomes one of the
    characters of [.mp4], so the comparison of line 99 is not affected. *)
Definition lower_char (c : ascii) : ascii :=
  let n := N_of_ascii c in
  if ((65 <=? n) && (n <=? 90))%N then ascii_of_N (n + 32) else c.

Fixpoint lower (s : string) : string :=
  match s with
  | EmptyString => EmptyString
  | String c s' => String (lower_char c) (lower s')
  end.

End PyStr.
Import PyStr.

(** ** pathlib on POSIX *)

Module PurePath.

Local Open Scope string_scope.

Definition sep : ascii := "/"%char.

(** [posixpath.splitroot] without the (always empty) drive: the root is
    [//] for exactly two leading slashes, [/] for any other number of
    them, and empty for a relative path. *)
Definition splitroot (p : string) : string * string :=
  if negb (startswith sep p) then ("", p)
  else if negb (startswith sep (str_drop 1 p)) || startswith sep (str_drop 2 p)
       then (String sep "", str_drop 1 p)
       else (str_take 2 p, str_drop 2 p).

(** [x and x != '.'], the filter of [_parse_path]. *)
Definition is_segment (x : string) : bool :=
  negb (String.eqb x "") && negb (String.eqb x ".").

(** [_parse_path]: the root and the segments of a path string. *)
Definition parse_path (path : string) : string * list string :=
  let '(root, rel) := splitroot path in
  (root, List.filter is_segment (str_split sep rel)).

(** [_format_parsed_parts]. *)
Definition format_parsed_parts (root : string) (tail : list string) : string :=
  root ++ str_join sep tail.

(** [posixpath.join(a, b)]. *)
Definition posix_join (a b : string) : string :=
  if startswith sep b then b
  else if String.eqb a "" || endswith sep a then a ++ b
  else a ++ String sep b.

(** A path object: the string it was made from and its parsed parts. *)
Record t : Type := mk {
  raw_path : string;
  root : string;
  tail : list string
}.

(** [Path(s)]. *)
Definition Path (s : string) : t :=
  let '(r, segments) := parse_path s in mk s r segments.

(** [_from_parsed_parts]. *)
Definition from_parsed_parts (r : string) (segments : list string) : t :=
  mk (format_parsed_parts r segments) r segments.

(** [str(p)]. *)
Definition str (p : t) : string :=
  let s := format_parsed_parts (root p) (tail p) in
  if String.eqb s "" then "." else s.

(** [p.name]: the last segment, empty when there is none. *)
Definition name (p : t) : string := List.last (tail p) "".

(** [p.suffix]: from the last dot of the name, when that dot is neither
    its first nor its last character. *)
Definition suffix (p : t) : string :=
  let n := name p in
  let i := rfind "." n in
  if ((0 <? i) && (i <? slen n - 1))%Z then str_drop (Z.to_nat i) n else "".

(** [p.stem]: the name without its suffix. *)
Definition stem (p : t) : string :=
  let n := name p in
  let i := rfind "." n in
  if ((0 <? i) && (i <? slen n - 1))%Z then str_take (Z.to_nat i) n else n.

(** [p.parent]. *)
Definition parent (p : t) : t :=
  match tail p with
  | [] => p
  | _ => from_parsed_parts (root p) (List.removelast (tail p))
  end.

(** [p / key] for a string [key]. *)
Definition truediv (p : t) (key : string) : t :=
  Path (posix_join (raw_path p) key).

End PurePath.

(** ** remove_mp4_extension *)

(** Lines 91-110. *)
Definition remove_mp4_extension (file_path : string) : string :=
  let path_obj := PurePath.Path file_path in
  if String.eqb (lower (PurePath.suffix path_obj)) ".mp4" then
    let new_name := PurePath.stem path_obj in
    let new_path := PurePath.str (PurePath.truediv (PurePath.parent path_obj) new_name) in
    new_path
  else file_path.

(** ** Well-formed parsed paths *)

(** The roots [splitroot] can give. *)
Definition is_root (r : string) : Prop :=
  r = ""%string \/ r = "/"%string \/ r = "//"%string.

(** A segment as [_parse_path] keeps it: not empty, not a lone dot, and
    without a separator. *)
Definition segment_ok (x : string) : Prop :=
  PurePath.is_segment x = true /\ contains PurePath.sep x = false.

(** ** Building a disguised file *)

(** [struct.pack('<I', n)]: the four bytes the trailer of a disguised file
    holds, least significant first. The decryptor only reads trailers; this
    is the writer's side, used to state what it restores. *)
Definition byte_of_Z (z : Z) : byte :=
  match Byte.of_N (Z.to_N (z mod 256)) with
  | Some b => b
  | None => x00
  end.

Definition littleEndian32 (n : Z) : list byte :=
  [byte_of_Z n; byte_of_Z (n / 256); byte_of_Z (n / 65536); byte_of_Z (n / 16777216)].

(** [front || reverse(head) || littleEndian32(len(head))]. *)
Definition disguise (front head : list byte) : list byte :=
  front ++ reverse_byte_array head ++ littleEndian32 (len head).

(** The last four bytes of a file and the header they announce. *)
Definition trailer (data : list byte) : list byte :=
  skip (len data - mask_length_indicator_length) data.

Definition disguised_header (data : list byte) (mask_head_length : Z) : list byte :=
  first_n mask_head_length
    (skip (len data - mask_length_indicator_length - mask_head_length) data).

(** What steps 7 and 8 leave: the reversed header written over the start
    of the file, cut to the new size. *)
Definition restored (data : list byte) (mask_head_length : Z) : list byte :=
  first_n (len data - mask_head_length - mask_length_indicator_length)
    (reverse_byte_array (disguised_header data mask_head_length)
     ++ skip mask_head_length data).

(** The failures the decryptor reports before it writes anything. *)
Definition validation_failure (r : report) : Prop :=
  match r with
  | TooSmall | TrailerReadError | InvalidMaskLength _ _
  | InvalidHeaderOffset _ | HeaderReadError => True
  | NotFound | DecryptError _ => False
  end.

(** An operation that changes the file. *)
Definition mutates (o : file_op) : bool :=
  match o with
  | OpWrite _ | OpTruncate _ => true
  | OpSeek _ _ | OpRead _ => false
  end.

(** ** The runs of reveal_file *)

(** The five ways a call can go, with everything it leaves behind. *)
Inductive reveal_run (fs : gmap string node) (file_path : string)
    : outcome -> Prop :=
| run_missing :
    fs !! file_path = None ->
    reveal_run fs file_path (mkOutcome false [NotFound] [] fs)
| run_too_small n :
    fs !! file_path = Some n ->
    st_size n <= 4 ->
    reveal_run fs file_path (mkOutcome false [TooSmall] [] fs)
| run_directory reported_size :
    fs !! file_path = Some (Directory reported_size) ->
    4 < reported_size ->
    reveal_run fs file_path
      (mkOutcome false [DecryptError IsADirectoryError] [] fs)
| run_rejected data m :
    fs !! file_path = Some (RegularFile data) ->
    4 < len data ->
    bytes_to_int (trailer data) = Some m ->
    m <= 0 \/ len data - 4 <= m ->
    reveal_run fs file_path
      (mkOutcome false [InvalidMaskLength m (len data)]
                 [OpSeek (-4) SEEK_END; OpRead 4] fs)
| run_restored data m :
    fs !! file_path = Some (RegularFile data) ->
    4 < len data ->
    bytes_to_int (trailer data) = Some m ->
    0 < m < len data - 4 ->
    reveal_run fs file_path
      (mkOutcome true []
                 [OpSeek (-4) SEEK_END; OpRead 4;
                  OpSeek (len data - 4 - m) SEEK_SET; OpRead m;
                  OpSeek 0 SEEK_SET;
                  OpWrite (reverse_byte_array (disguised_header data m));
                  OpTruncate (len data - m - 4)]
                 (<[file_path := RegularFile (restored data m)]> fs)).

(** ** Console output of the batch functions *)

(** What [process_file], [find_all_mp4_files], [ask_confirmation] and
    [process_directory] print. A [print] of a constant text is [Text] with
    its source line; a formatted one carries the values it shows. The
    prompt of [input] is written to the console like a printed line. *)
Inductive line : Type :=
| Text (source_line : Z)
| Revealed (r : report)                          (* printed by reveal_file *)
| RenamedLine (old_name new_name : string)       (* line 123 *)
| RenameFailed (file_path new_path : string) (e : exn)   (* line 126 *)
| RevealFailed (file_name : string)              (* line 129 *)
| PathMissing (root_path : string)               (* line 148 *)
| TargetPath (target_path : string)              (* line 159 *)
| FoundCount (file_count : Z)                    (* line 160 *)
| PreviewHeader (max_preview : Z)                (* line 164 *)
| PreviewItem (number : Z) (file_name : string)  (* line 167 *)
| MoreFiles (others : Z)                         (* line 170 *)
| Prompt                                         (* line 185 *)
| Starting (dir_path : string)                   (* line 205 *)
| Progress (i total : Z) (file_name : string).   (* line 226 *)

(** ** process_file *)

(** [os.rename(src, dst)] as POSIX has it when [src] is a regular file: a
    missing [src] fails ([FileNotFoundError]), a directory at [dst] fails
    too, and anything else at [dst] is replaced. Renaming a path to itself
    changes nothing. Both failures are [OSError]s; of which kind the second
    is depends on where the directory lies ([IsADirectoryError] for an
    unrelated directory, a plain [OSError] for one that contains [src]),
    which a map from path strings does not record, so [OSError] stands for
    either. [process_file] renames only what [reveal_file] has just
    restored, a regular file; a directory as [src] is not modelled and
    gives [OSError]. *)
Definition os_rename (fs : gmap string node) (src dst : string)
    : exn + gmap string node :=
  match fs !! src with
  | None => inl OSError
  | Some (Directory _) => inl OSError
  | Some (RegularFile data) =>
      match fs !! dst with
      | Some (Directory _) => inl OSError
      | _ => inr (<[dst := RegularFile data]> (delete src fs))
      end
  end.

(** What a call of [process_file] leaves behind. *)
Record processed : Type := mkProcessed {
  done : bool;                      (* the value returned *)
  said : list line;                 (* what was printed *)
  files_then : gmap string node     (* the file system afterwards *)
}.

(** Lines 112-130. [Path(file_path).rename(new_path)] hands the operating
    system [str(Path(file_path))] as the source. *)
Definition process_file (fs : gmap string node) (file_path : string) : processed :=
  let o := reveal_file fs file_path in
  if returned o then
    let new_path := remove_mp4_extension file_path in
    match os_rename (files_after o)
                    (PurePath.str (PurePath.Path file_path)) new_path with
    | inr fs' =>
        mkProcessed true
          (map Revealed (reports o)
           ++ [RenamedLine (PurePath.name (PurePath.Path file_path))
                           (PurePath.name (PurePath.Path new_path))])
          fs'
    | inl e =>
        mkProcessed false
          (map Revealed (reports o) ++ [RenameFailed file_path new_path e])
          (files_after o)
    end
  else
    mkProcessed false
      (map Revealed (reports o)
       ++ [RevealFailed (PurePath.name (PurePath.Path file_path))])
      (files_after o).

(** ** The batch functions *)

(** What a call of [ask_confirmation] leaves behind: the answer ([None]
    when [input] met the end of the input and raised [EOFError]), what was
    shown, and the typed lines not yet read. *)
Record asked : Type := mkAsked {
  answer : option bool;
  shown : list line;
  unread : list string
}.

(** What a call of [process_directory] leaves behind: the statistics
    ([None] when the [EOFError] of the confirmation passed through), the
    console output, the typed lines not yet read and the file system. *)
Record directory_run : Type := mkDirectoryRun {
  stats_returned : option (gmap string Z);
  console : list line;
  inputs_left : list string;
  files_finally : gmap string node
}.

Section Batch.

(** [str.strip] and [str.upper], taken as given. *)
Variable strip : string -> string.
Variable upper : string -> string.

(** [root_path_obj.rglob('*.mp4')]: the paths the recursive scan of a
    directory yields, in the order it yields them, taken as given. *)
Variable rglob_mp4 : gmap string node -> PurePath.t -> list PurePath.t.

(** Lines 132-150. [is_file] and [is_dir] ask the operating system about
    [str(root_path_obj)]. *)
Definition find_all_mp4_files (fs : gmap string node) (root_path : string)
    : list string * list line :=
  let root_path_obj := PurePath.Path root_path in
  match fs !! PurePath.str root_path_obj with
  | Some (RegularFile _) =>
      if String.eqb (lower (PurePath.suffix root_path_obj)) ".mp4"
      then ([PurePath.str root_path_obj], [])
      else ([], [])
  | Some (Directory _) =>
      (map PurePath.str (rglob_mp4 fs root_path_obj), [])
  | None => ([], [PathMissing root_path])
  end.

(** The loop of lines 184-191 over the lines still to be typed. *)
Fixpoint confirm_loop (inputs : list string) : asked :=
  match inputs with
  | [] => mkAsked None [Prompt] []
  | typed :: rest =>
      let response := upper (strip typed) in
      if String.eqb response "Y" || String.eqb response "YES" then
        mkAsked (Some true) [Prompt] rest
      else if String.eqb response "N" || String.eqb response "NO" then
        mkAsked (Some false) [Prompt] rest
      else
        let a := confirm_loop rest in
        mkAsked (answer a) (Prompt :: Text 191 :: shown a) (unread a)
  end.

(** The loop of lines 165-167: [enumerate(file_list[:max_preview])]. *)
Definition preview (max_preview : Z) (file_list : list string) : list line :=
  imap (fun i file_path =>
          PreviewItem (Z.of_nat i + 1) (PurePath.name (PurePath.Path file_path)))
       (first_n max_preview file_list).

(** Lines 152-191. *)
Definition ask_confirmation (inputs : list string) (target_path : string)
    (file_count : Z) (file_list : list string) : asked :=
  let max_preview := 5 in
  let a := confirm_loop inputs in
  mkAsked (answer a)
    ([Text 156; Text 157; Text 158; TargetPath target_path;
      FoundCount file_count; PreviewHeader max_preview]
     ++ preview max_preview file_list
     ++ (if file_count >? max_preview
         then [MoreFiles (file_count - max_preview)] else [])
     ++ [Text 172; Text 173; Text 174; Text 175; Text 176;
         Text 179; Text 180; Text 181; Text 182]
     ++ shown a)
    (unread a).

(** The dictionary of lines 198-203. *)
Definition initial_stats : gmap string Z :=
  <["total" := 0]> (<["success" := 0]> (<["failed" := 0]> (<["skipped" := 0]> ∅))).

(** [stats[key] += 1]. *)
Definition increment (key : string) (stats : gmap string Z) : gmap string Z :=
  <[key := stats !!! key + 1]> stats.

(** The loop of lines 225-235, [i] counting from where it stands.
    [process_file] handles its own exceptions, so the handler of line 233
    has nothing to catch. *)
Fixpoint process_each (i : Z) (mp4_files : list string)
    (stats : gmap string Z) (fs : gmap string node)
    : gmap string Z * list line * gmap string node :=
  match mp4_files with
  | [] => (stats, [], fs)
  | file_path :: rest =>
      let r := process_file fs file_path in
      let stats' :=
        if done r then increment "success" stats else increment "failed" stats in
      let '(stats'', out, fs'') := process_each (i + 1) rest stats' (files_then r) in
      (stats'',
       Progress i (stats !!! "total") (PurePath.name (PurePath.Path file_path))
       :: said r ++ out,
       fs'')
  end.

(** Lines 193-237. *)
Definition process_directory (fs : gmap string node) (inputs : list string)
    (dir_path : string) : directory_run :=
  let '(mp4_files, out) := find_all_mp4_files fs dir_path in
  let stats := <["total" := len mp4_files]> initial_stats in
  let before := [Starting dir_path; Text 206] ++ out in
  match mp4_files with
  | [] => mkDirectoryRun (Some stats) (before ++ [Text 213]) inputs fs
  | _ :: _ =>
      let a := ask_confirmation inputs dir_path (stats !!! "total") mp4_files in
      match answer a with
      | None => mkDirectoryRun None (before ++ shown a) (unread a) fs
      | Some false =>
          mkDirectoryRun (Some stats) (before ++ shown a ++ [Text 218])
                         (unread a) fs
      | Some true =>
          let '(stats', out', fs') := process_each 1 mp4_files stats fs in
          mkDirectoryRun (Some stats')
            (before ++ shown a ++ [Text 221; Text 222] ++ out') (unread a) fs'
      end
  end.

End Batch.

(** The ASCII part of [str.upper] and [str.strip], to run examples. *)
Definition upper_char (c : ascii) : ascii :=
  let n := N_of_ascii c in
  if ((97 <=? n) && (n <=? 122))%N then ascii_of_N (n - 32) else c.

Fixpoint upper_ascii (s : string) : string :=
  match s with
  | EmptyString => EmptyString
  | String c s' => String (upper_char c) (upper_ascii s')
  end.

Fixpoint lstrip_ascii (s : string) : string :=
  match s with
  | String c s' => if Ascii.is_space c then lstrip_ascii s' else s
  | EmptyString => EmptyString
  end.

Definition strip_ascii (s : string) : string :=
  String.rev (lstrip_ascii (String.rev (lstrip_ascii s))).

(** The tests of lines 186 and 188 on a response. *)
Definition accepts (response : string) : bool :=
  String.eqb response "Y" || String.eqb response "YES".

Definition declines (response : string) : bool :=
  String.eqb response "N" || String.eqb response "NO".

(** The four keys of the statistics. *)
Definition stats_keys : list string := ["total"; "success"; "failed"; "skipped"]%string.

(** * Properties *)

(** ** Bytes and lengths *)

Section ByteFacts.

Lemma byte_val_range b : 0 <= byte_val b < 256.
Proof.
  unfold byte_val. pose proof (Byte.to_N_bounded b). lia.
Qed.

Lemma len_nonneg {A} (l : list A) : 0 <= len l.
Proof. unfold len. lia. Qed.

Lemma len_app {A} (l k : list A) : len (l ++ k) = len l + len k.
Proof. unfold len. rewrite length_app. lia. Qed.

Lemma len_first_n {A} n (l : list A) :
  0 <= n <= len l -> len (first_n n l) = n.
Proof. unfold len, first_n. rewrite length_take. lia. Qed.

Lemma len_skip {A} i (l : list A) :
  0 <= i <= len l -> len (skip i l) = len l - i.
Proof. unfold len, skip. rewrite length_drop. lia. Qed.

End ByteFacts.

(** ** Running the file operations *)

Section Running.

Lemma bind_run {A B} (m : M A) (k : A -> M B) s a s' :
  m s = (inr a, s') -> bind m k s = k a s'.
Proof. intros E. unfold bind. now rewrite E. Qed.

Lemma bind_raise {A B} (m : M A) (k : A -> M B) s e s' :
  m s = (inl e, s') -> bind m k s = (inl e, s').
Proof. intros E. unfold bind. now rewrite E. Qed.

Lemma f_seek_end_run offset s :
  0 <= len (contents s) + offset ->
  f_seek offset SEEK_END s =
    (inr tt, mkF (contents s) (len (contents s) + offset) (printed s)
                 (performed s ++ [OpSeek offset SEEK_END])).
Proof.
  intros H. unfold f_seek, bind, record_op, get, set_position, raise. simpl.
  destruct (Z.ltb_spec (len (contents s) + offset) 0); [lia | reflexivity].
Qed.

Lemma f_seek_set_run offset s :
  0 <= offset ->
  f_seek offset SEEK_SET s =
    (inr tt, mkF (contents s) offset (printed s)
                 (performed s ++ [OpSeek offset SEEK_SET])).
Proof.
  intros H. unfold f_seek, bind, record_op, get, set_position, raise. simpl.
  destruct (Z.ltb_spec offset 0); [lia | reflexivity].
Qed.

Lemma f_read_run size s :
  0 <= size ->
  f_read size s =
    (inr (first_n size (skip (position s) (contents s))),
     mkF (contents s)
         (position s + len (first_n size (skip (position s) (contents s))))
         (printed s) (performed s ++ [OpRead size])).
Proof.
  intros H. unfold f_read, bind, record_op, get, set_position, ret. simpl.
  destruct (Z.ltb_spec size 0); [lia | reflexivity].
Qed.

Lemma f_write_run data s :
  f_write data s =
    (inr tt,
     mkF (first_n (position s) (contents s)
          ++ zeros (position s - len (contents s)) ++ data
          ++ skip (position s + len data) (contents s))
         (position s + len data) (printed s) (performed s ++ [OpWrite data])).
Proof. reflexivity. Qed.

Lemma f_truncate_run size s :
  0 <= size ->
  f_truncate size s =
    (inr tt,
     mkF (first_n size (contents s) ++ zeros (size - len (contents s)))
         (position s) (printed s) (performed s ++ [OpTruncate size])).
Proof.
  intros H. unfold f_truncate, bind, record_op, get, set_contents, raise. simpl.
  destruct (Z.ltb_spec size 0); [lia | reflexivity].
Qed.

Lemma print_run r s :
  print r s = (inr tt, mkF (contents s) (position s) (printed s ++ [r]) (performed s)).
Proof. reflexivity. Qed.

End Running.

(** ** The trailer *)

Section Trailer.

Lemma bytes_to_int_four (bs : list byte) :
  len bs = 4 -> exists m, bytes_to_int bs = Some m /\ 0 <= m < 4294967296.
Proof.
  unfold len. intros H.
  destruct bs as [|b0 [|b1 [|b2 [|b3 [|b4 bs]]]]]; simpl in H; try lia.
  eexists. split; [reflexivity|].
  pose proof (byte_val_range b0). pose proof (byte_val_range b1).
  pose proof (byte_val_range b2). pose proof (byte_val_range b3). lia.
Qed.

Lemma bytes_to_int_len (bs : list byte) m :
  bytes_to_int bs = Some m -> len bs = 4.
Proof.
  destruct bs as [|b0 [|b1 [|b2 [|b3 [|b4 bs]]]]]; simpl; try discriminate.
  reflexivity.
Qed.

Lemma len_trailer (data : list byte) :
  4 <= len data -> len (trailer data) = 4.
Proof.
  intros H. unfold trailer, mask_length_indicator_length.
  rewrite len_skip; lia.
Qed.

Lemma trailer_decodes (data : list byte) :
  4 <= len data ->
  exists m, bytes_to_int (trailer data) = Some m /\ 0 <= m < 4294967296.
Proof. intros H. apply bytes_to_int_four, len_trailer, H. Qed.

End Trailer.

(** ** The body of reveal_file on an open file *)

Section Opened.

Variable data : list byte.
Variable mask_head_length : Z.
Hypothesis size_ok : 4 < len data.
Hypothesis decoded : bytes_to_int (trailer data) = Some mask_head_length.

Let file_size := len data.

Lemma read_trailer :
  first_n 4 (skip (file_size + - 4) data) = trailer data.
Proof.
  unfold trailer, mask_length_indicator_length, file_size.
  replace (len data + - 4) with (len data - 4) by lia.
  unfold first_n. apply take_ge.
  pose proof (len_skip (len data - 4) data). unfold len in *.
  unfold skip in *. lia.
Qed.

Lemma reveal_opened_rejects :
  mask_head_length <= 0 \/ file_size - 4 <= mask_head_length ->
  reveal_opened file_size (mkF data 0 [] []) =
    (inr false,
     mkF data file_size [InvalidMaskLength mask_head_length file_size]
         [OpSeek (-4) SEEK_END; OpRead 4]).
Proof.
  intros Hbad. unfold reveal_opened.
  change (- mask_length_indicator_length) with (-4).
  unfold mask_length_indicator_length.
  erewrite bind_run by (apply f_seek_end_run; simpl; lia).
  erewrite bind_run by (apply f_read_run; lia).
  cbn [contents position printed performed app].
  fold file_size. rewrite read_trailer.
  rewrite (len_trailer data) by lia. rewrite Z.eqb_refl. cbn [negb].
  rewrite decoded. unfold expect.
  erewrite bind_run by reflexivity.
  replace ((mask_head_length <=? 0) || (mask_head_length >=? file_size - 4))
    with true.
  2:{ symmetry. apply orb_true_iff. rewrite Z.leb_le, Z.geb_le. lia. }
  erewrite bind_run by apply print_run.
  unfold ret. cbn [contents position printed performed app].
  do 3 f_equal. lia.
Qed.

Lemma len_disguised_header :
  0 <= mask_head_length <= file_size - 4 ->
  len (disguised_header data mask_head_length) = mask_head_length.
Proof.
  intros H. unfold disguised_header, mask_length_indicator_length.
  fold file_size. rewrite len_first_n; [reflexivity|].
  rewrite len_skip; fold file_size; lia.
Qed.

Lemma zeros_nonpos n : n <= 0 -> zeros n = [].
Proof. intros H. unfold zeros. now replace (Z.to_nat n) with O by lia. Qed.

Lemma reveal_opened_accepts :
  0 < mask_head_length < file_size - 4 ->
  reveal_opened file_size (mkF data 0 [] []) =
    (inr true,
     mkF (restored data mask_head_length) mask_head_length []
         [OpSeek (-4) SEEK_END; OpRead 4;
          OpSeek (file_size - 4 - mask_head_length) SEEK_SET;
          OpRead mask_head_length;
          OpSeek 0 SEEK_SET;
          OpWrite (reverse_byte_array (disguised_header data mask_head_length));
          OpTruncate (file_size - mask_head_length - 4)]).
Proof.
  intros Hok. unfold reveal_opened.
  change (- mask_length_indicator_length) with (-4).
  unfold mask_length_indicator_length.
  erewrite bind_run by (apply f_seek_end_run; simpl; lia).
  erewrite bind_run by (apply f_read_run; lia).
  cbn [contents position printed performed app].
  fold file_size. rewrite read_trailer.
  rewrite (len_trailer data) by lia. rewrite Z.eqb_refl. cbn [negb].
  rewrite decoded. unfold expect.
  erewrite bind_run by reflexivity.
  replace ((mask_head_length <=? 0) || (mask_head_length >=? file_size - 4))
    with false.
  2:{ symmetry. apply orb_false_iff. rewrite Z.leb_gt, Z.geb_leb, Z.leb_gt. lia. }
  replace ((file_size - 4 - mask_head_length <? 0)
           || (file_size - 4 - mask_head_length >=? file_size)) with false.
  2:{ symmetry. apply orb_false_iff. rewrite Z.ltb_ge, Z.geb_leb, Z.leb_gt. lia. }
  erewrite bind_run by (apply f_seek_set_run; lia).
  erewrite bind_run by (apply f_read_run; lia).
  cbn [contents position printed performed app].
  change (first_n mask_head_length (skip (file_size - 4 - mask_head_length) data))
    with (disguised_header data mask_head_length).
  rewrite len_disguised_header by lia.
  rewrite Z.eqb_refl. cbn [negb].
  erewrite bind_run by (apply f_seek_set_run; lia).
  erewrite bind_run by apply f_write_run.
  erewrite bind_run by (apply f_truncate_run; lia).
  unfold ret. cbn [contents position printed performed app].
  assert (Hrb : len (reverse_byte_array (disguised_header data mask_head_length))
                = mask_head_length).
  { unfold reverse_byte_array, len. rewrite length_reverse.
    apply len_disguised_header. lia. }
  rewrite Hrb. rewrite (zeros_nonpos (0 - len data)) by lia.
  change (first_n 0 data) with (@nil byte). cbn [app].
  rewrite Z.add_0_l.
  rewrite zeros_nonpos, app_nil_r.
  2:{ rewrite len_app, Hrb, len_skip; fold file_size; lia. }
  reflexivity.
Qed.

End Opened.

(** ** Every run of reveal_file *)

Section Runs.

Variable fs : gmap string node.
Variable file_path : string.

Lemma reveal_file_rejected data m :
  fs !! file_path = Some (RegularFile data) ->
  4 < len data ->
  bytes_to_int (trailer data) = Some m ->
  m <= 0 \/ len data - 4 <= m ->
  reveal_file fs file_path =
    mkOutcome false [InvalidMaskLength m (len data)]
              [OpSeek (-4) SEEK_END; OpRead 4] fs.
Proof.
  intros Hfile Hsize Hdec Hbad. unfold reveal_file. rewrite Hfile.
  cbn [st_size open_rb_plus]. unfold mask_length_indicator_length.
  destruct (Z.leb_spec (len data) 4); [lia|].
  rewrite (reveal_opened_rejects data m) by assumption.
  unfold close_file. cbn [fst snd contents printed performed].
  f_equal. now apply insert_id.
Qed.

Lemma reveal_file_restored data m :
  fs !! file_path = Some (RegularFile data) ->
  4 < len data ->
  bytes_to_int (trailer data) = Some m ->
  0 < m < len data - 4 ->
  reveal_file fs file_path =
    mkOutcome true []
              [OpSeek (-4) SEEK_END; OpRead 4;
               OpSeek (len data - 4 - m) SEEK_SET; OpRead m;
               OpSeek 0 SEEK_SET;
               OpWrite (reverse_byte_array (disguised_header data m));
               OpTruncate (len data - m - 4)]
              (<[file_path := RegularFile (restored data m)]> fs).
Proof.
  intros Hfile Hsize Hdec Hok. unfold reveal_file. rewrite Hfile.
  cbn [st_size open_rb_plus]. unfold mask_length_indicator_length.
  destruct (Z.leb_spec (len data) 4); [lia|].
  rewrite (reveal_opened_accepts data m) by assumption.
  reflexivity.
Qed.

Lemma reveal_file_run : reveal_run fs file_path (reveal_file fs file_path).
Proof.
  destruct (fs !! file_path) as [n|] eqn:Hfile.
  2:{ unfold reveal_file. rewrite Hfile. now constructor. }
  destruct (Z.leb_spec (st_size n) 4) as [Hsmall|Hbig].
  { unfold reveal_file, mask_length_indicator_length. rewrite Hfile.
    destruct (Z.leb_spec (st_size n) 4); [|lia].
    now apply run_too_small with n. }
  destruct n as [data|reported_size]; cbn [st_size] in Hbig.
  - destruct (trailer_decodes data) as (m & Hdec & _); [lia|].
    destruct (Z_lt_le_dec 0 m) as [Hpos|Hnonpos];
      [destruct (Z_lt_le_dec m (len data - 4)) as [Hlt|Hge]|].
    + rewrite (reveal_file_restored data m) by (assumption || lia).
      now apply run_restored.
    + rewrite (reveal_file_rejected data m) by (assumption || lia).
      apply run_rejected; auto.
    + rewrite (reveal_file_rejected data m) by (assumption || lia).
      apply run_rejected; auto.
  - unfold reveal_file, mask_length_indicator_length. rewrite Hfile.
    cbn [st_size open_rb_plus].
    destruct (Z.leb_spec reported_size 4); [lia|].
    now apply run_directory with reported_size.
Qed.

End Runs.

(** ** The restored bytes *)

Section Restored.

Variable data : list byte.
Variable m : Z.
Hypothesis mask_ok : 0 < m < len data - 4.

Let new_file_size := len data - m - 4.

Lemma len_restored : len (restored data m) = new_file_size.
Proof.
  unfold restored, mask_length_indicator_length. fold new_file_size.
  apply len_first_n. unfold reverse_byte_array.
  rewrite len_app, len_skip by lia.
  replace (len (reverse (disguised_header data m)))
    with (len (disguised_header data m))
    by (unfold len; now rewrite length_reverse).
  rewrite len_disguised_header; unfold new_file_size; lia.
Qed.

Lemma restored_split :
  restored data m =
    first_n new_file_size (reverse_byte_array (disguised_header data m))
    ++ first_n (new_file_size - m) (skip m data).
Proof.
  unfold restored, mask_length_indicator_length. fold new_file_size.
  unfold first_n. rewrite take_app. do 2 f_equal.
  unfold reverse_byte_array. rewrite length_reverse.
  pose proof (len_disguised_header data m ltac:(lia)) as Hl.
  unfold new_file_size, len in *. lia.
Qed.

Lemma restored_prefix :
  first_n (Z.min m new_file_size) (restored data m) =
  first_n (Z.min m new_file_size)
          (reverse_byte_array (disguised_header data m)).
Proof.
  rewrite restored_split. unfold first_n.
  rewrite take_app_le.
  - rewrite take_take. f_equal. lia.
  - rewrite length_take. unfold reverse_byte_array. rewrite length_reverse.
    pose proof (len_disguised_header data m ltac:(lia)) as Hl.
    unfold new_file_size, len in *. lia.
Qed.

Lemma restored_header_whole :
  m <= new_file_size ->
  first_n m (restored data m) = reverse_byte_array (disguised_header data m).
Proof.
  intros Hroom. pose proof restored_prefix as Hp.
  rewrite Z.min_l in Hp by assumption. rewrite Hp.
  unfold first_n. apply take_ge. unfold reverse_byte_array.
  rewrite length_reverse.
  pose proof (len_disguised_header data m ltac:(lia)) as Hl.
  unfold len in *. lia.
Qed.

Lemma restored_rest (i : nat) :
  m <= Z.of_nat i < new_file_size ->
  restored data m !! i = data !! i.
Proof.
  intros Hi. unfold restored, mask_length_indicator_length.
  fold new_file_size. unfold first_n.
  rewrite lookup_take_lt by (unfold new_file_size, len in *; lia).
  pose proof (len_disguised_header data m ltac:(lia)) as Hl.
  unfold new_file_size, len in *.
  rewrite lookup_app_r; unfold reverse_byte_array; rewrite length_reverse;
    [|lia].
  unfold skip. rewrite lookup_drop. f_equal. lia.
Qed.

End Restored.

(** ** Disguised files *)

Section Disguise.

Lemma byte_val_of_Z z : byte_val (byte_of_Z z) = z mod 256.
Proof.
  unfold byte_of_Z, byte_val.
  pose proof (Z.mod_pos_bound z 256 ltac:(lia)) as Hr.
  pose proof (Byte.to_of_N_option_map (Z.to_N (z mod 256))) as Hm.
  destruct (Byte.of_N (Z.to_N (z mod 256))) as [b|] eqn:Hb.
  - apply Byte.to_of_N in Hb. rewrite Hb. lia.
  - cbn [option_map] in Hm.
    destruct (N.leb_spec (Z.to_N (z mod 256)) 255); [discriminate | lia].
Qed.

Lemma bytes_to_int_littleEndian32 n :
  0 <= n < 4294967296 -> bytes_to_int (littleEndian32 n) = Some n.
Proof.
  intros Hn. unfold littleEndian32, bytes_to_int.
  rewrite !byte_val_of_Z. f_equal.
  Z.div_mod_to_equations. lia.
Qed.

Lemma len_littleEndian32 n : len (littleEndian32 n) = 4.
Proof. reflexivity. Qed.

Variables front head : list byte.

Lemma len_reverse_byte_array (buffer : list byte) :
  len (reverse_byte_array buffer) = len buffer.
Proof. unfold len, reverse_byte_array. now rewrite length_reverse. Qed.

Lemma len_disguise : len (disguise front head) = len front + len head + 4.
Proof.
  unfold disguise. rewrite !len_app, len_reverse_byte_array, len_littleEndian32.
  lia.
Qed.

Lemma trailer_disguise : trailer (disguise front head) = littleEndian32 (len head).
Proof.
  unfold trailer, mask_length_indicator_length. rewrite len_disguise.
  unfold disguise, skip. rewrite app_assoc.
  apply drop_app_length'.
  rewrite length_app. unfold reverse_byte_array. rewrite length_reverse.
  unfold len. lia.
Qed.

Lemma disguised_header_disguise :
  disguised_header (disguise front head) (len head) = reverse_byte_array head.
Proof.
  unfold disguised_header, mask_length_indicator_length. rewrite len_disguise.
  unfold disguise, skip, first_n.
  rewrite drop_app_length' by (unfold len; lia).
  apply take_app_length'.
  unfold reverse_byte_array. rewrite length_reverse. unfold len. lia.
Qed.

Lemma restored_disguise :
  restored (disguise front head) (len head) =
    first_n (len front) (head ++ skip (len head) front).
Proof.
  unfold restored, mask_length_indicator_length.
  rewrite len_disguise, disguised_header_disguise.
  unfold reverse_byte_array at 1. unfold reverse_byte_array at 1.
  rewrite reverse_involutive.
  replace (len front + len head + 4 - len head - 4) with (len front) by lia.
  unfold disguise, first_n, skip, len. rewrite !Nat2Z.id.
  destruct (Nat.le_gt_cases (length head) (length front)) as [Hfits|Hshort].
  - rewrite drop_app_le by assumption. rewrite app_assoc.
    apply take_app_le. rewrite length_app, length_drop. lia.
  - rewrite !(take_app_le head) by lia. reflexivity.
Qed.

End Disguise.

(** ** Python strings *)

Section StringFacts.

Local Open Scope string_scope.

Lemma app_String a (s t : string) : String a s ++ t = String a (s ++ t).
Proof. reflexivity. Qed.

Lemma str_app_nil_r (s : string) : s ++ "" = s.
Proof. induction s as [|a s IH]; [reflexivity|]. now rewrite app_String, IH. Qed.

Lemma str_app_assoc (s t u : string) : (s ++ t) ++ u = s ++ t ++ u.
Proof.
  induction s as [|a s IH]; [reflexivity|]. now rewrite !app_String, IH.
Qed.

Lemma str_take_drop n (s : string) : str_take n s ++ str_drop n s = s.
Proof.
  revert s. induction n as [|n IH]; intros [|a s]; try reflexivity.
  cbn [str_take str_drop]. now rewrite app_String, IH.
Qed.

Lemma str_take_nonempty n (s : string) :
  (0 < n)%nat -> s <> "" -> str_take n s <> "".
Proof. destruct n, s; cbn; intros; try lia; congruence. Qed.

Lemma str_drop_length n (s : string) :
  String.length (str_drop n s) = (String.length s - n)%nat.
Proof.
  revert s. induction n as [|n IH]; intros [|a s]; cbn; auto.
Qed.

Lemma contains_app c (s t : string) :
  contains c (s ++ t) = contains c s || contains c t.
Proof.
  induction s as [|a s IH]; [reflexivity|].
  rewrite app_String. cbn [contains]. rewrite IH. now rewrite orb_assoc.
Qed.

Lemma contains_take c n (s : string) :
  contains c s = false -> contains c (str_take n s) = false.
Proof.
  intros H. rewrite <- (str_take_drop n s), contains_app in H.
  now apply orb_false_iff in H.
Qed.

Lemma rfind_range c (s : string) : (-1 <= rfind c s < slen s)%Z.
Proof.
  unfold slen. induction s as [|a s IH]; cbn [rfind String.length]; [lia|].
  destruct (Z.leb_spec 0 (rfind c s)); [lia|].
  destruct (Ascii.eqb a c); lia.
Qed.

(** Splitting and joining. *)

Lemma str_split_nonempty c (s : string) : str_split c s <> [].
Proof.
  induction s as [|a s IH]; cbn [str_split]; [discriminate|].
  destruct (Ascii.eqb a c); [discriminate|].
  destruct (str_split c s); discriminate.
Qed.

Lemma str_split_pieces c (s : string) :
  Forall (fun piece => contains c piece = false) (str_split c s).
Proof.
  induction s as [|a s IH]; cbn [str_split].
  - repeat constructor.
  - destruct (Ascii.eqb a c) eqn:Hac.
    + constructor; [reflexivity | exact IH].
    + destruct (str_split c s) as [|piece pieces].
      * repeat constructor. cbn [contains]. now rewrite Hac.
      * inversion IH; subst. constructor; [|assumption].
        cbn [contains]. now rewrite Hac.
Qed.

Lemma str_split_whole c (s : string) :
  contains c s = false -> str_split c s = [s].
Proof.
  induction s as [|a s IH]; [reflexivity|].
  cbn [contains str_split]. intros [Hac Hs]%orb_false_iff.
  rewrite Hac, (IH Hs). reflexivity.
Qed.

Lemma str_split_app c (s t : string) :
  contains c s = false ->
  str_split c (s ++ String c t) = s :: str_split c t.
Proof.
  induction s as [|a s IH]; intros Hs.
  - change ("" ++ String c t) with (String c t). cbn [str_split].
    now rewrite Ascii.eqb_refl.
  - cbn [contains] in Hs. apply orb_false_iff in Hs as [Hac Hs].
    rewrite app_String. cbn [str_split]. rewrite Hac, (IH Hs). reflexivity.
Qed.

Lemma str_split_join c (parts : list string) :
  parts <> [] ->
  Forall (fun piece => contains c piece = false) parts ->
  str_split c (str_join c parts) = parts.
Proof.
  induction parts as [|p rest IH]; [congruence|]. intros _ Hall.
  inversion Hall as [|? ? Hp Hrest]; subst.
  destruct rest as [|q rest].
  - cbn [str_join]. now apply str_split_whole.
  - change (str_join c (p :: q :: rest))
      with (p ++ String c (str_join c (q :: rest))).
    rewrite str_split_app by assumption. f_equal. apply IH; [discriminate|assumption].
Qed.

Lemma str_join_snoc c (parts : list string) (x : string) :
  parts <> [] ->
  str_join c (parts ++ [x])%list = str_join c parts ++ String c x.
Proof.
  induction parts as [|p rest IH]; [congruence|]. intros _.
  destruct rest as [|q rest].
  - reflexivity.
  - change (str_join c ((p :: q :: rest) ++ [x])%list)
      with (p ++ String c (str_join c ((q :: rest) ++ [x])%list)).
    rewrite IH by discriminate.
    change (str_join c (p :: q :: rest))
      with (p ++ String c (str_join c (q :: rest))).
    now rewrite str_app_assoc, app_String.
Qed.

Lemma str_join_last_app c (parts : list string) (x y : string) :
  str_join c (parts ++ [(x ++ y)%string])%list = str_join c (parts ++ [x])%list ++ y.
Proof.
  destruct parts as [|p rest]; [reflexivity|].
  rewrite !str_join_snoc by discriminate.
  now rewrite str_app_assoc, app_String.
Qed.

Lemma startswith_app c (s t : string) :
  s <> "" -> startswith c (s ++ t) = startswith c s.
Proof. destruct s; [congruence | reflexivity]. Qed.

Lemma startswith_contains c (s : string) :
  contains c s = false -> startswith c s = false.
Proof.
  destruct s as [|a s]; [reflexivity|]. cbn [contains startswith].
  now intros [H _]%orb_false_iff.
Qed.

Lemma endswith_app c (s t : string) :
  t <> "" -> endswith c (s ++ t) = endswith c t.
Proof.
  intros Ht. induction s as [|a s IH]; [reflexivity|].
  rewrite app_String. cbn [endswith].
  destruct (s ++ t) eqn:E; [|exact IH].
  destruct s; [|discriminate]. now destruct t.
Qed.

Lemma endswith_contains c (s : string) :
  contains c s = false -> endswith c s = false.
Proof.
  induction s as [|a s IH]; [reflexivity|]. cbn [contains endswith].
  intros [Hac Hs]%orb_false_iff. destruct s; [assumption | auto].
Qed.

End StringFacts.

(** ** Parsing and formatting paths *)

Section PathFacts.

Import PurePath.
Local Open Scope string_scope.

Lemma splitroot_root (p : string) : is_root (fst (splitroot p)).
Proof.
  unfold splitroot, is_root.
  destruct p as [|a [|b p]]; cbn [startswith str_drop str_take negb].
  - now left.
  - destruct (Ascii.eqb_spec a sep) as [-> | ]; cbn; auto.
  - destruct (Ascii.eqb_spec a sep) as [-> | ]; cbn [negb fst]; auto.
    destruct (Ascii.eqb_spec b sep) as [-> | ]; cbn [negb orb fst]; auto.
    destruct (startswith sep p); cbn [fst]; auto.
Qed.

Lemma splitroot_format (r rel : string) :
  is_root r -> startswith sep rel = false -> splitroot (r ++ rel) = (r, rel).
Proof.
  intros [-> | [-> | ->]] Hrel; unfold splitroot.
  - change ("" ++ rel) with rel. now rewrite Hrel.
  - change ("/" ++ rel) with (String sep rel).
    cbn [startswith str_drop]. rewrite Ascii.eqb_refl, Hrel. reflexivity.
  - change ("//" ++ rel) with (String sep (String sep rel)).
    cbn [startswith str_drop str_take]. rewrite Ascii.eqb_refl, Hrel.
    reflexivity.
Qed.

Lemma parse_path_root (s : string) : is_root (fst (parse_path s)).
Proof.
  unfold parse_path. pose proof (splitroot_root s) as H.
  destruct (splitroot s). exact H.
Qed.

Lemma parse_path_segments (s : string) : Forall segment_ok (snd (parse_path s)).
Proof.
  unfold parse_path. destruct (splitroot s) as [r rel]. cbn [snd].
  apply List.Forall_forall. intros x [Hin Hseg]%List.filter_In.
  split; [exact Hseg|].
  pose proof (str_split_pieces sep rel) as Hall.
  rewrite List.Forall_forall in Hall. now apply Hall.
Qed.

Lemma segment_ok_nonempty (x : string) : segment_ok x -> x <> "".
Proof.
  intros [Hseg _] ->. discriminate.
Qed.

Lemma segment_ok_keep (parts : list string) :
  Forall segment_ok parts -> List.filter is_segment parts = parts.
Proof.
  induction 1 as [|x parts [Hseg _] _ IH]; [reflexivity|].
  cbn [List.filter]. now rewrite Hseg, IH.
Qed.

Lemma join_startswith (parts : list string) (x : string) :
  Forall segment_ok parts -> x <> "" -> contains sep x = false ->
  startswith sep (str_join sep (parts ++ [x])%list) = false.
Proof.
  intros Hall Hx Hnosep. destruct Hall as [|p rest [Hseg Hp] Hrest].
  - now apply startswith_contains.
  - rewrite str_join_snoc by discriminate.
    destruct rest as [|q rest].
    + cbn [str_join]. rewrite startswith_app.
      * now apply startswith_contains.
      * intros ->. discriminate.
    + change (str_join sep (p :: q :: rest))
        with (p ++ String sep (str_join sep (q :: rest))).
      rewrite str_app_assoc, startswith_app.
      * now apply startswith_contains.
      * intros ->. discriminate.
Qed.

Lemma parse_format (r : string) (parts : list string) (x : string) :
  is_root r -> Forall segment_ok parts -> x <> "" -> contains sep x = false ->
  parse_path (format_parsed_parts r (parts ++ [x])%list)
    = (r, (parts ++ List.filter is_segment [x])%list).
Proof.
  intros Hr Hall Hx Hnosep. unfold parse_path, format_parsed_parts.
  rewrite splitroot_format by (auto using join_startswith).
  rewrite str_split_join.
  - rewrite List.filter_app, segment_ok_keep by assumption. reflexivity.
  - now destruct parts.
  - apply Forall_app. split.
    + eapply Forall_impl; [exact Hall|]. now intros ? [_ ?].
    + now repeat constructor.
Qed.

Lemma format_nonempty (r : string) (parts : list string) (x : string) :
  x <> "" -> format_parsed_parts r (parts ++ [x])%list <> "".
Proof.
  intros Hx. unfold format_parsed_parts.
  assert (Hj : str_join sep (parts ++ [x])%list <> "").
  { destruct parts as [|p rest]; [exact Hx|].
    rewrite str_join_snoc by discriminate. now destruct (str_join sep (p :: rest)). }
  destruct r; [exact Hj | discriminate].
Qed.

Lemma posix_join_format (r : string) (parts : list string) (x : string) :
  is_root r -> Forall segment_ok parts -> x <> "" -> contains sep x = false ->
  posix_join (format_parsed_parts r parts) x
    = format_parsed_parts r (parts ++ [x])%list.
Proof.
  intros Hr Hall Hx Hnosep. unfold posix_join.
  rewrite (startswith_contains sep x Hnosep).
  destruct parts as [|p rest].
  - unfold format_parsed_parts. cbn [str_join app].
    rewrite str_app_nil_r. destruct Hr as [-> | [-> | ->]]; reflexivity.
  - assert (Hlast : exists init l, (p :: rest) = (init ++ [l])%list /\
                                   l <> "" /\ contains sep l = false).
    { exists (removelast (p :: rest)), (List.last (p :: rest) "").
      split; [apply app_removelast_last; discriminate|].
      assert (Hin : List.In (List.last (p :: rest) "") (p :: rest)).
      { rewrite (app_removelast_last "" (l := p :: rest)) at 2 by discriminate.
        apply List.in_or_app. right. now left. }
      rewrite List.Forall_forall in Hall. destruct (Hall _ Hin) as [Hseg Hns].
      split; [|exact Hns]. intros E. rewrite E in Hseg. discriminate. }
    destruct Hlast as (init & l & Heq & Hl & Hlsep).
    assert (Hne : format_parsed_parts r (p :: rest) <> "").
    { rewrite Heq. now apply format_nonempty. }
    assert (Hend : endswith sep (format_parsed_parts r (p :: rest)) = false).
    { rewrite Heq. unfold format_parsed_parts.
      destruct init as [|i0 init].
      - cbn [app str_join]. rewrite endswith_app by assumption.
        now apply endswith_contains.
      - rewrite str_join_snoc by discriminate.
        rewrite <- str_app_assoc.
        change (String sep l) with (String sep "" ++ l).
        rewrite <- str_app_assoc, endswith_app by assumption.
        now apply endswith_contains. }
    rewrite Hend. apply String.eqb_neq in Hne. rewrite Hne. cbn [orb].
    unfold format_parsed_parts. rewrite str_join_snoc by discriminate.
    now rewrite str_app_assoc.
Qed.

End PathFacts.

(** ** The suffix of a name *)

Section Suffix.

Import PurePath.
Local Open Scope string_scope.

Variable file_path : string.
Let p := Path file_path.

Lemma Path_root : root p = fst (parse_path file_path).
Proof. unfold p, Path. now destruct (parse_path file_path). Qed.

Lemma Path_tail : tail p = snd (parse_path file_path).
Proof. unfold p, Path. now destruct (parse_path file_path). Qed.

Lemma str_of_parts (q : t) :
  str q = str (from_parsed_parts (root q) (tail q)).
Proof. reflexivity. Qed.

Lemma Path_of_format (r : string) (parts : list string) (x : string) :
  is_root r -> Forall segment_ok parts -> x <> "" -> contains sep x = false ->
  str (Path (format_parsed_parts r (parts ++ [x])%list))
    = str (from_parsed_parts r (parts ++ List.filter is_segment [x])%list).
Proof.
  intros Hr Hall Hx Hnosep. unfold Path.
  rewrite parse_format by assumption. reflexivity.
Qed.

(** A name with a suffix splits into a non-empty stem and that suffix. *)
Lemma suffix_splits :
  suffix p <> "" ->
  tail p = (removelast (tail p) ++ [(stem p ++ suffix p)%string])%list /\
  stem p <> "" /\ contains sep (stem p) = false /\
  Forall segment_ok (removelast (tail p)).
Proof.
  unfold suffix, stem. intros Hsuf.
  destruct ((0 <? rfind "." (name p)) && (rfind "." (name p) <? slen (name p) - 1))%Z
    eqn:Hcond; [|congruence].
  apply andb_true_iff in Hcond as [Hlo Hhi].
  apply Z.ltb_lt in Hlo, Hhi.
  rewrite str_take_drop.
  assert (Hname : name p <> "").
  { intros E. rewrite E in Hlo. cbn in Hlo. lia. }
  assert (Htail : tail p <> []).
  { intros E. apply Hname. unfold name. now rewrite E. }
  pose proof (app_removelast_last "" Htail) as Hsplit. fold (name p) in Hsplit.
  pose proof (parse_path_segments file_path) as Hall.
  rewrite <- Path_tail, Hsplit in Hall.
  apply Forall_app in Hall as [Hinit Hlast].
  inversion Hlast as [|? ? [_ Hnosep] _]; subst.
  split; [exact Hsplit|].
  split; [apply str_take_nonempty; [lia | exact Hname]|].
  split; [now apply contains_take | exact Hinit].
Qed.

End Suffix.

(** * The claims about reveal_file *)

Local Open Scope string_scope.
Local Open Scope list_scope.
Local Open Scope Z_scope.

(** A copy of [b] stored back to front, byte [i] of the copy being byte
    [length b - 1 - i] of [b], is the reversal of [b]. *)
Lemma stored_back_to_front (b stored : list byte) :
  length stored = length b ->
  (forall i : nat, (i < length b)%nat -> stored !! i = b !! (length b - S i)%nat) ->
  stored = reverse b.
Proof.
  intros Hlen Hbytes. apply list_eq. intros i.
  destruct (Nat.lt_ge_cases i (length b)) as [Hi | Hi].
  - rewrite reverse_lookup by assumption. now apply Hbytes.
  - rewrite !lookup_ge_None_2; [reflexivity | |]; rewrite ?length_reverse; lia.
Qed.

(** C9. Reversing bytes keeps the length and undoes itself, and it is the
    reversal: byte [i] of the result is byte [len(b) - 1 - i] of [b]. So
    when the forward masking has stored the header [b] back to front before
    the trailer, reversing the disguised header of that file gives back
    exactly [b]. *)
Theorem reverse_byte_array_involution (b : list byte) :
  len (reverse_byte_array b) = len b /\
  reverse_byte_array (reverse_byte_array b) = b /\
  (forall i : nat,
     (i < length b)%nat ->
     reverse_byte_array b !! i = b !! (length b - S i)%nat) /\
  (forall front stored : list byte,
     length stored = length b ->
     (forall i : nat,
        (i < length b)%nat -> stored !! i = b !! (length b - S i)%nat) ->
     reverse_byte_array
       (disguised_header (front ++ stored ++ littleEndian32 (len b)) (len b))
     = b) /\
  forall front : list byte,
    reverse_byte_array (disguised_header (disguise front b) (len b)) = b.
Proof.
  split; [apply len_reverse_byte_array|].
  split; [apply reverse_involutive|].
  split; [intros i Hi; now apply reverse_lookup|].
  split.
  - intros front stored Hlen Hbytes.
    rewrite (stored_back_to_front b stored Hlen Hbytes).
    change (front ++ reverse b ++ littleEndian32 (len b)) with (disguise front b).
    rewrite disguised_header_disguise. apply reverse_involutive.
  - intros front. rewrite disguised_header_disguise. apply reverse_involutive.
Qed.

Lemma reverse_byte_array_involution_witness :
  reverse_byte_array
    (disguised_header ([x99; x99] ++ [x03; x02; x01] ++ littleEndian32 3) 3)
  = [x01; x02; x03].
Proof.
  refine (proj1 (proj2 (proj2 (proj2
            (reverse_byte_array_involution [x01; x02; x03]))))
            [x99; x99] [x03; x02; x01] eq_refl _).
  intros i Hi. destruct i as [|[|[|i]]]; try reflexivity.
  cbn in Hi. lia.
Defined.



(** C5. An existing file of at most 4 bytes is turned away with the
    too-small report before it is opened: nothing is read, nothing changes.
    A file of more than 4 bytes never gets that report. *)
Theorem too_small_precondition (fs : gmap string node) (file_path : string)
    (n : node) :
  fs !! file_path = Some n ->
  (st_size n <= 4 ->
   reveal_file fs file_path = mkOutcome false [TooSmall] [] fs) /\
  (4 < st_size n -> ~ In TooSmall (reports (reveal_file fs file_path))).
Proof.
  intros Hfile. split.
  - intros Hsmall. unfold reveal_file, mask_length_indicator_length.
    rewrite Hfile. destruct (Z.leb_spec (st_size n) 4); [reflexivity | lia].
  - intros Hbig Hin.
    destruct (reveal_file_run fs file_path) as [Hm|n' Hn' Hs|sz Hd Hs|d m Hd|d m Hd];
      cbn [reports In] in Hin; try rewrite Hfile in *; simplify_eq;
      try (destruct Hin as [Hin|[]]; discriminate); try contradiction.
    lia.
Qed.

Lemma too_small_precondition_witness :
  let fs : gmap string node := {[ "a.mp4" := RegularFile [x01; x00; x00; x00] ]} in
  let n := RegularFile [x01; x00; x00; x00] in
  (st_size n <= 4 ->
   reveal_file fs "a.mp4" = mkOutcome false [TooSmall] [] fs) /\
  (4 < st_size n -> ~ In TooSmall (reports (reveal_file fs "a.mp4"))).
Proof.
  exact (too_small_precondition
           {[ "a.mp4" := RegularFile [x01; x00; x00; x00] ]} "a.mp4"
           (RegularFile [x01; x00; x00; x00]) eq_refl).
Defined.

(** C4. A file of more than 4 bytes whose trailer decodes to 0, or to
    [fileSize - 4] or more, is rejected with the invalid-mask-length report,
    after the trailer was read and nothing else. *)
Theorem invalid_mask_length_rejected (fs : gmap string node)
    (file_path : string) (data : list byte) (m : Z) :
  fs !! file_path = Some (RegularFile data) ->
  4 < len data ->
  bytes_to_int (trailer data) = Some m ->
  m = 0 \/ len data - 4 <= m ->
  reveal_file fs file_path =
    mkOutcome false [InvalidMaskLength m (len data)]
              [OpSeek (-4) SEEK_END; OpRead 4] fs.
Proof.
  intros Hfile Hsize Hdec Hbad.
  apply reveal_file_rejected; auto. lia.
Qed.

Lemma invalid_mask_length_rejected_witness :
  (let fs : gmap string node :=
     {[ "a.mp4" := RegularFile [x41; x00; x00; x00; x00] ]} in
   reveal_file fs "a.mp4" =
     mkOutcome false [InvalidMaskLength 0 5] [OpSeek (-4) SEEK_END; OpRead 4] fs)
  /\
  (let fs : gmap string node :=
     {[ "a.mp4" := RegularFile [x41; x42; x02; x00; x00; x00] ]} in
   reveal_file fs "a.mp4" =
     mkOutcome false [InvalidMaskLength 2 6] [OpSeek (-4) SEEK_END; OpRead 4] fs).
Proof.
  split.
  - refine (invalid_mask_length_rejected
              {[ "a.mp4" := RegularFile [x41; x00; x00; x00; x00] ]} "a.mp4"
              [x41; x00; x00; x00; x00] 0 eq_refl _ eq_refl _).
    + reflexivity.
    + left. reflexivity.
  - refine (invalid_mask_length_rejected
              {[ "a.mp4" := RegularFile [x41; x42; x02; x00; x00; x00] ]} "a.mp4"
              [x41; x42; x02; x00; x00; x00] 2 eq_refl _ eq_refl _).
    + reflexivity.
    + right. vm_compute. discriminate.
Defined.

(** C7. Once the mask length has passed [0 < maskLength < fileSize - 4],
    the header offset lies in [0, fileSize): the second check of line 63 is
    false, and no call ever prints its report. *)
Theorem header_offset_check_unreachable (file_size mask_head_length : Z) :
  0 < mask_head_length < file_size - mask_length_indicator_length ->
  let original_head_position :=
    file_size - mask_length_indicator_length - mask_head_length in
  0 <= original_head_position < file_size /\
  (original_head_position <? 0) || (original_head_position >=? file_size) = false /\
  forall (fs : gmap string node) (file_path : string) (p : Z),
    ~ In (InvalidHeaderOffset p) (reports (reveal_file fs file_path)).
Proof.
  unfold mask_length_indicator_length. intros Hok. cbv zeta.
  split; [lia|]. split.
  - apply orb_false_iff. rewrite Z.ltb_ge, Z.geb_leb, Z.leb_gt. lia.
  - intros fs file_path p Hin.
    destruct (reveal_file_run fs file_path); cbn [reports In] in Hin;
      try (destruct Hin as [Hin|[]]; discriminate); contradiction.
Qed.

Lemma header_offset_check_unreachable_witness :
  0 < 3 < 9 - mask_length_indicator_length /\
  (let original_head_position := 9 - mask_length_indicator_length - 3 in
   0 <= original_head_position < 9 /\
   (original_head_position <? 0) || (original_head_position >=? 9) = false /\
   forall (fs : gmap string node) (file_path : string) (p : Z),
     ~ In (InvalidHeaderOffset p) (reports (reveal_file fs file_path))).
Proof.
  assert (Hok : 0 < 3 < 9 - mask_length_indicator_length)
    by (vm_compute; split; reflexivity).
  split; [exact Hok | exact (header_offset_check_unreachable 9 3 Hok)].
Defined.

(** C6. Whenever a call returns [False] with one of the validation reports,
    the file system afterwards is the one before, byte for byte, and the
    calls made on the file were seeks and reads only. *)
Theorem rejection_leaves_file_untouched (fs : gmap string node)
    (file_path : string) (r : report) :
  returned (reveal_file fs file_path) = false ->
  In r (reports (reveal_file fs file_path)) ->
  validation_failure r ->
  files_after (reveal_file fs file_path) = fs /\
  file_bytes (files_after (reveal_file fs file_path)) file_path
    = file_bytes fs file_path /\
  forallb (fun o => negb (mutates o)) (file_ops (reveal_file fs file_path)) = true.
Proof.
  intros Hret Hin Hval.
  destruct (reveal_file_run fs file_path);
    cbn [returned reports file_ops files_after In] in *;
    try discriminate; auto.
Qed.

Lemma rejection_leaves_file_untouched_witness :
  let fs : gmap string node :=
    {[ "a.mp4" := RegularFile [x41; x42; x43; x09; x00; x00; x00] ]} in
  files_after (reveal_file fs "a.mp4") = fs /\
  file_bytes (files_after (reveal_file fs "a.mp4")) "a.mp4"
    = file_bytes fs "a.mp4" /\
  forallb (fun o => negb (mutates o)) (file_ops (reveal_file fs "a.mp4")) = true.
Proof.
  refine (rejection_leaves_file_untouched
            {[ "a.mp4" := RegularFile [x41; x42; x43; x09; x00; x00; x00] ]}
            "a.mp4" (InvalidMaskLength 9 7) eq_refl _ I).
  vm_compute. left. reflexivity.
Defined.

(** ** What a successful call leaves *)

Section Success.

Variable fs : gmap string node.
Variable file_path : string.

Lemma file_bytes_after_insert (bytes : list byte) :
  file_bytes (<[file_path := RegularFile bytes]> fs) file_path = Some bytes.
Proof. unfold file_bytes. now rewrite lookup_insert_eq. Qed.

End Success.

(** C3, as the code has it. A file of [fileSize] bytes whose trailer decodes
    to [maskLength] with [0 < maskLength < fileSize - 4] is restored: the
    call succeeds, the file is left with [fileSize - maskLength - 4] bytes,
    bytes at offsets from [maskLength] up to the new size are as before,
    and the start of the file is the reversed disguised header as far as the
    new size reaches: the whole of it when
    [maskLength <= fileSize - maskLength - 4], a prefix of it otherwise. *)
Theorem success_postcondition (fs : gmap string node) (file_path : string)
    (data : list byte) (maskLength : Z) :
  fs !! file_path = Some (RegularFile data) ->
  bytes_to_int (trailer data) = Some maskLength ->
  0 < maskLength < len data - 4 ->
  let o := reveal_file fs file_path in
  let newSize := len data - maskLength - 4 in
  let header := reverse_byte_array (disguised_header data maskLength) in
  exists out : list byte,
    returned o = true /\
    file_bytes (files_after o) file_path = Some out /\
    len out = newSize /\
    first_n (Z.min maskLength newSize) out
      = first_n (Z.min maskLength newSize) header /\
    (maskLength <= newSize -> first_n maskLength out = header) /\
    (forall i : nat, maskLength <= Z.of_nat i < newSize -> out !! i = data !! i).
Proof.
  intros Hfile Hdec Hok o newSize header. subst o newSize header.
  rewrite (reveal_file_restored fs file_path data maskLength)
    by (assumption || lia).
  cbn [returned files_after]. exists (restored data maskLength).
  split; [reflexivity|].
  split; [apply file_bytes_after_insert|].
  split; [now apply len_restored|].
  split; [now apply restored_prefix|].
  split; [now apply restored_header_whole|].
  intros i Hi. now apply restored_rest.
Qed.

Lemma success_postcondition_witness :
  let data := [x10; x20; x30; x40; x50; x60; x02; x01; x02; x00; x00; x00] in
  let fs : gmap string node := {[ "a.mp4" := RegularFile data ]} in
  let o := reveal_file fs "a.mp4" in
  exists out : list byte,
    returned o = true /\
    file_bytes (files_after o) "a.mp4" = Some out /\
    len out = 6 /\
    first_n 2 out = first_n 2 [x01; x02] /\
    (2 <= 6 -> first_n 2 out = [x01; x02]) /\
    (forall i : nat, 2 <= Z.of_nat i < 6 -> out !! i = data !! i).
Proof.
  refine (success_postcondition
            {[ "a.mp4" := RegularFile
                 [x10; x20; x30; x40; x50; x60; x02; x01; x02; x00; x00; x00] ]}
            "a.mp4"
            [x10; x20; x30; x40; x50; x60; x02; x01; x02; x00; x00; x00] 2
            eq_refl eq_refl _).
  vm_compute. split; reflexivity.
Defined.

(** C3, as stated, fails when the header is longer than what is left after
    truncation: a 10-byte file with a 4-byte header is cut to 2 bytes, so
    its first 4 bytes cannot be the 4 restored header bytes. *)
Lemma success_postcondition_counterexample :
  let data := [x10; x20; x04; x03; x02; x01; x04; x00; x00; x00] in
  let fs : gmap string node := {[ "a.mp4" := RegularFile data ]} in
  let o := reveal_file fs "a.mp4" in
  bytes_to_int (trailer data) = Some 4 /\ 0 < 4 < len data - 4 /\
  returned o = true /\
  file_bytes (files_after o) "a.mp4" = Some [x01; x02] /\
  reverse_byte_array (disguised_header data 4) = [x01; x02; x03; x04] /\
  first_n 4 [x01; x02] <> reverse_byte_array (disguised_header data 4).
Proof.
  vm_compute. repeat split; try reflexivity. discriminate.
Qed.

(** C2, as the code has it. On the nine bytes 99 99 03 02 01 03 00 00 00
    the call succeeds and leaves the two bytes 01 02: the restored header
    01 02 03 is written over the start of the file, which is then cut to
    [9 - 3 - 4 = 2] bytes. *)
Theorem concrete_scenario (fs : gmap string node) (file_path : string) :
  fs !! file_path
    = Some (RegularFile [x99; x99; x03; x02; x01; x03; x00; x00; x00]) ->
  returned (reveal_file fs file_path) = true /\
  file_bytes (files_after (reveal_file fs file_path)) file_path
    = Some [x01; x02].
Proof.
  intros Hfile.
  rewrite (reveal_file_restored fs file_path _ 3 Hfile)
    by (vm_compute; try split; reflexivity).
  cbn [returned files_after]. split; [reflexivity|].
  rewrite file_bytes_after_insert. reflexivity.
Qed.

Lemma concrete_scenario_witness :
  let fs : gmap string node :=
    {[ "1.zip.mp4" := RegularFile [x99; x99; x03; x02; x01; x03; x00; x00; x00] ]} in
  returned (reveal_file fs "1.zip.mp4") = true /\
  file_bytes (files_after (reveal_file fs "1.zip.mp4")) "1.zip.mp4"
    = Some [x01; x02].
Proof.
  exact (concrete_scenario
           {[ "1.zip.mp4" :=
                RegularFile [x99; x99; x03; x02; x01; x03; x00; x00; x00] ]}
           "1.zip.mp4" eq_refl).
Defined.

(** C2, as stated, fails: the file is left as 01 02, not 99 99 01 02 03. *)
Lemma concrete_scenario_counterexample :
  let fs : gmap string node :=
    {[ "1.zip.mp4" := RegularFile [x99; x99; x03; x02; x01; x03; x00; x00; x00] ]} in
  file_bytes (files_after (reveal_file fs "1.zip.mp4")) "1.zip.mp4"
    <> Some [x99; x99; x01; x02; x03].
Proof. vm_compute. discriminate. Qed.

(** C1, as the code has it. For [orig] of length [L] with [0 < L < 2^32 - 4]
    and a non-empty [tail], the call on [tail || reverse(orig) || le32(L)]
    succeeds and leaves the first [len(tail)] bytes of [orig] followed by
    [tail] without its first [L] bytes; the final size is [len(tail)]. When
    [tail] is [mask || rest] with [len(mask) = L], that is [orig || rest]. *)
Theorem round_trip (fs : gmap string node) (file_path : string)
    (orig tail : list byte) :
  0 < len orig < 4294967292 ->
  0 < len tail ->
  fs !! file_path = Some (RegularFile (disguise tail orig)) ->
  let o := reveal_file fs file_path in
  let out := first_n (len tail) (orig ++ skip (len orig) tail) in
  returned o = true /\
  file_bytes (files_after o) file_path = Some out /\
  len out = len tail /\
  (forall mask rest : list byte,
     tail = mask ++ rest -> len mask = len orig -> out = orig ++ rest).
Proof.
  intros HL Htail Hfile o out. subst o out.
  assert (Hdec : bytes_to_int (trailer (disguise tail orig)) = Some (len orig)).
  { rewrite trailer_disguise. apply bytes_to_int_littleEndian32. lia. }
  rewrite (reveal_file_restored fs file_path _ (len orig) Hfile)
    by (try assumption; rewrite len_disguise; lia).
  cbn [returned files_after]. rewrite file_bytes_after_insert.
  rewrite restored_disguise.
  split; [reflexivity|]. split; [reflexivity|]. split.
  - destruct (Z_le_gt_dec (len orig) (len tail)).
    + apply len_first_n. rewrite len_app, len_skip; lia.
    + apply len_first_n. rewrite len_app. pose proof (len_nonneg (skip (len orig) tail)). lia.
  - intros mask rest -> Hmask. rewrite <- Hmask.
    unfold skip, first_n, len. rewrite !Nat2Z.id, drop_app_length.
    apply take_ge. rewrite !length_app. unfold len in Hmask. lia.
Qed.

Lemma round_trip_witness :
  let orig := [x50; x4b] in
  let tail := [x00; x00; x2a] in
  let fs : gmap string node := {[ "a.mp4" := RegularFile (disguise tail orig) ]} in
  let o := reveal_file fs "a.mp4" in
  let out := first_n (len tail) (orig ++ skip (len orig) tail) in
  returned o = true /\
  file_bytes (files_after o) "a.mp4" = Some out /\
  len out = len tail /\
  (forall mask rest : list byte,
     tail = mask ++ rest -> len mask = len orig -> out = orig ++ rest).
Proof.
  refine (round_trip {[ "a.mp4" := RegularFile (disguise [x00; x00; x2a] [x50; x4b]) ]}
            "a.mp4" [x50; x4b] [x00; x00; x2a] _ _ eq_refl).
  - vm_compute. split; reflexivity.
  - reflexivity.
Defined.

(** C1, as stated, fails: from a 2-byte [orig] and a 3-byte [tail] the call
    leaves 3 bytes, not the 5 bytes [orig || tail]. *)
Lemma round_trip_counterexample :
  let orig := [x50; x4b] in
  let tail := [x00; x00; x2a] in
  let fs : gmap string node := {[ "a.mp4" := RegularFile (disguise tail orig) ]} in
  0 < len orig < 4294967292 /\
  file_bytes (files_after (reveal_file fs "a.mp4")) "a.mp4"
    = Some [x50; x4b; x2a] /\
  file_bytes (files_after (reveal_file fs "a.mp4")) "a.mp4"
    <> Some (orig ++ tail).
Proof.
  vm_compute. repeat split; try reflexivity. discriminate.
Qed.

(** * The claim about remove_mp4_extension *)

Section ExtensionStrip.

Import PurePath.
Local Open Scope string_scope.

Lemma lower_nonempty (s : string) : lower s = ".mp4" -> s <> "".
Proof. intros H ->. discriminate. Qed.

Lemma remove_mp4_extension_parts (file_path : string) :
  lower (suffix (Path file_path)) = ".mp4" ->
  remove_mp4_extension file_path =
    str (from_parsed_parts (root (Path file_path))
           (removelast (tail (Path file_path))
            ++ List.filter is_segment [stem (Path file_path)])%list).
Proof.
  intros Hmatch. unfold remove_mp4_extension. rewrite Hmatch. cbn [String.eqb].
  rewrite !Ascii.eqb_refl.
  destruct (suffix_splits file_path (lower_nonempty _ Hmatch))
    as (Hsplit & Hstem & Hnosep & Hinit).
  assert (Hparent : parent (Path file_path) =
            from_parsed_parts (root (Path file_path))
                              (removelast (tail (Path file_path)))).
  { unfold parent. destruct (tail (Path file_path)); [|reflexivity].
    now destruct (removelast []). }
  unfold truediv. rewrite Hparent. cbn [raw_path from_parsed_parts].
  pose proof (parse_path_root file_path) as Hroot. rewrite <- Path_root in Hroot.
  rewrite posix_join_format by assumption.
  now apply Path_of_format.
Qed.

End ExtensionStrip.

(** C8, as the code has it. A path whose final extension is not [.mp4]
    (case-insensitively) comes back unchanged. For one whose final extension
    is, the result is the path in pathlib's normal form: the same root, the
    same preceding segments (empty and [.] segments of the input dropped,
    single separators, no trailing separator) and the last segment without
    that extension, earlier extensions kept; a last segment that would be a
    lone dot is dropped. When the input is already in normal form, the result
    is the input without its last four characters. No file is touched: the
    result depends on the path string alone. *)
Theorem extension_strip (file_path : string) :
  let p := PurePath.Path file_path in
  (lower (PurePath.suffix p) <> ".mp4"%string ->
   remove_mp4_extension file_path = file_path) /\
  (lower (PurePath.suffix p) = ".mp4"%string ->
   exists (init : list string) (name_stem ext : string),
     PurePath.tail p = init ++ [(name_stem ++ ext)%string] /\
     name_stem = PurePath.stem p /\ ext = PurePath.suffix p /\
     name_stem <> ""%string /\
     remove_mp4_extension file_path =
       PurePath.str (PurePath.from_parsed_parts (PurePath.root p)
                       (init ++ List.filter PurePath.is_segment [name_stem])) /\
     (name_stem <> "."%string ->
      remove_mp4_extension file_path =
        PurePath.format_parsed_parts (PurePath.root p) (init ++ [name_stem])) /\
     (name_stem <> "."%string -> PurePath.str p = file_path ->
      (remove_mp4_extension file_path ++ ext)%string = file_path)).
Proof.
  intros p. split.
  - intros Hno. unfold remove_mp4_extension. fold p.
    apply String.eqb_neq in Hno. now rewrite Hno.
  - intros Hmatch.
    destruct (suffix_splits file_path (lower_nonempty _ Hmatch))
      as (Hsplit & Hstem & Hnosep & Hinit). fold p in Hsplit, Hstem, Hnosep, Hinit.
    exists (removelast (PurePath.tail p)), (PurePath.stem p), (PurePath.suffix p).
    pose proof (remove_mp4_extension_parts file_path Hmatch) as Hparts.
    fold p in Hparts.
    assert (Hplain : PurePath.stem p <> "."%string ->
              remove_mp4_extension file_path =
                PurePath.format_parsed_parts (PurePath.root p)
                  (removelast (PurePath.tail p) ++ [PurePath.stem p])).
    { intros Hdot. rewrite Hparts. unfold PurePath.is_segment. cbn [List.filter].
      apply String.eqb_neq in Hstem, Hdot. rewrite Hstem, Hdot. cbn [negb andb].
      unfold PurePath.str. cbn [PurePath.root PurePath.tail PurePath.from_parsed_parts].
      apply String.eqb_neq in Hstem.
      pose proof (format_nonempty (PurePath.root p)
                    (removelast (PurePath.tail p)) _ Hstem) as Hne.
      apply String.eqb_neq in Hne. now rewrite Hne. }
    repeat split; auto.
    intros Hdot Hnormal. rewrite (Hplain Hdot).
    transitivity (PurePath.str p); [|exact Hnormal].
    unfold PurePath.str.
    remember (removelast (PurePath.tail p)) as init eqn:Einit.
    rewrite Hsplit.
    assert (Hne : PurePath.format_parsed_parts (PurePath.root p)
                    (init ++ [(PurePath.stem p ++ PurePath.suffix p)%string])
                  <> ""%string).
    { apply format_nonempty. intros E.
      destruct (PurePath.stem p); [congruence | discriminate]. }
    apply String.eqb_neq in Hne. rewrite Hne.
    unfold PurePath.format_parsed_parts.
    now rewrite str_join_last_app, str_app_assoc.
Qed.

Lemma extension_strip_witness :
  remove_mp4_extension "a/b.mp3" = "a/b.mp3"%string /\
  (remove_mp4_extension "a/1.zip.MP4" ++ ".MP4")%string = "a/1.zip.MP4"%string.
Proof.
  split.
  - refine (proj1 (extension_strip "a/b.mp3") _). vm_compute. discriminate.
  - destruct (proj2 (extension_strip "a/1.zip.MP4") eq_refl)
      as (init & name_stem & ext & _ & Hs & He & _ & _ & _ & Hstr).
    subst name_stem ext. refine (Hstr _ eq_refl). vm_compute. discriminate.
Defined.

(** C8, as stated, fails on a path that is not in normal form: the leading
    [./] of the input is gone from the result, which is therefore not the
    input with its final suffix removed. *)
Lemma extension_strip_counterexample :
  lower (PurePath.suffix (PurePath.Path "./1.zip.mp4")) = ".mp4"%string /\
  remove_mp4_extension "./1.zip.mp4" = "1.zip"%string /\
  remove_mp4_extension "./1.zip.mp4" <> "./1.zip"%string /\
  (forall ext : string,
     (remove_mp4_extension "./1.zip.mp4" ++ ext)%string <> "./1.zip.mp4"%string).
Proof.
  split; [reflexivity|]. split; [reflexivity|]. split; [discriminate|].
  intros ext. vm_compute. discriminate.
Qed.

(** The example of the docstring of line 94. *)
Example remove_mp4_extension_docstring :
  remove_mp4_extension "1.zip.mp4" = "1.zip"%string.
Proof. reflexivity. Qed.

(** * Further properties *)

(** ** bytes_to_int *)

(** X1. [bytes_to_int] decodes exactly the buffers of four bytes, and what
    it decodes is an unsigned 32-bit number. *)
Theorem bytes_to_int_defined (byte_data : list byte) :
  (is_Some (bytes_to_int byte_data) <-> len byte_data = 4) /\
  (forall n, bytes_to_int byte_data = Some n -> 0 <= n < 4294967296).
Proof.
  split; [split|].
  - intros [n Hn]. now apply bytes_to_int_len in Hn.
  - intros Hlen. destruct (bytes_to_int_four byte_data Hlen) as (n & Hn & _).
    now exists n.
  - intros n Hn. pose proof (bytes_to_int_len _ _ Hn) as Hlen.
    destruct (bytes_to_int_four byte_data Hlen) as (n' & Hn' & Hrange).
    congruence.
Qed.

Lemma byte_val_inj (a b : byte) : byte_val a = byte_val b -> a = b.
Proof.
  unfold byte_val. intros H. apply N2Z.inj in H.
  pose proof (Byte.of_to_N a) as Ha. pose proof (Byte.of_to_N b) as Hb.
  rewrite H in Ha. congruence.
Qed.

(** X2. Decoding is one-to-one, and every unsigned 32-bit number is the
    value of some buffer: two trailers announce the same length only when
    they are the same four bytes. *)
Theorem bytes_to_int_bijective :
  (forall (a b : list byte) (n : Z),
     bytes_to_int a = Some n -> bytes_to_int b = Some n -> a = b) /\
  (forall n : Z, 0 <= n < 4294967296 ->
     exists byte_data : list byte, bytes_to_int byte_data = Some n).
Proof.
  split.
  - intros a b n Ha Hb.
    destruct a as [|a0 [|a1 [|a2 [|a3 [|a4 a]]]]]; try discriminate.
    destruct b as [|b0 [|b1 [|b2 [|b3 [|b4 b]]]]]; try discriminate.
    cbn [bytes_to_int] in Ha, Hb. injection Ha as Ha. injection Hb as Hb.
    pose proof (byte_val_range a0). pose proof (byte_val_range a1).
    pose proof (byte_val_range a2). pose proof (byte_val_range a3).
    pose proof (byte_val_range b0). pose proof (byte_val_range b1).
    pose proof (byte_val_range b2). pose proof (byte_val_range b3).
    assert (byte_val a0 = byte_val b0 /\ byte_val a1 = byte_val b1 /\
            byte_val a2 = byte_val b2 /\ byte_val a3 = byte_val b3)
      as (E0 & E1 & E2 & E3) by lia.
    apply byte_val_inj in E0, E1, E2, E3. now subst.
  - intros n Hn. exists (littleEndian32 n).
    now apply bytes_to_int_littleEndian32.
Qed.

Lemma bytes_to_int_bijective_witness :
  exists byte_data : list byte, bytes_to_int byte_data = Some 258.
Proof.
  refine (proj2 bytes_to_int_bijective 258 _). vm_compute. split; [discriminate | reflexivity].
Defined.

(** ** reveal_file *)

(** X3. A call changes nothing but the file it is given: every other path
    names what it named before, and no path appears or disappears. *)
Theorem reveal_file_frame (fs : gmap string node) (file_path : string) :
  (forall other : string,
     other <> file_path ->
     files_after (reveal_file fs file_path) !! other = fs !! other) /\
  dom (files_after (reveal_file fs file_path)) = dom fs.
Proof.
  destruct (reveal_file_run fs file_path) as [| | | |data m Hfile _ _ _];
    cbn [files_after]; try (split; [reflexivity | reflexivity]).
  split.
  - intros other Hne. now apply lookup_insert_ne.
  - apply dom_insert_lookup_L. now exists (RegularFile data).
Qed.

(** X4. A call returns [True] exactly for a regular file of more than four
    bytes whose trailer announces a header length [m] with
    [0 < m < fileSize - 4]. *)
Theorem reveal_file_succeeds_iff (fs : gmap string node) (file_path : string) :
  returned (reveal_file fs file_path) = true <->
  exists (data : list byte) (m : Z),
    fs !! file_path = Some (RegularFile data) /\ 4 < len data /\
    bytes_to_int (trailer data) = Some m /\ 0 < m < len data - 4.
Proof.
  split.
  - intros Hret.
    destruct (reveal_file_run fs file_path) as [| | | |data m Hfile Hsize Hdec Hok];
      cbn [returned] in Hret; try discriminate.
    now exists data, m.
  - intros (data & m & Hfile & Hsize & Hdec & Hok).
    now rewrite (reveal_file_restored fs file_path data m).
Qed.

(** X5. A successful call leaves a file that is not empty and at least five
    bytes shorter than it was. *)
Theorem reveal_file_shrinks (fs : gmap string node) (file_path : string) :
  returned (reveal_file fs file_path) = true ->
  exists data out : list byte,
    fs !! file_path = Some (RegularFile data) /\
    file_bytes (files_after (reveal_file fs file_path)) file_path = Some out /\
    1 <= len out <= len data - 5.
Proof.
  intros Hret.
  destruct (reveal_file_run fs file_path) as [| | | |data m Hfile Hsize Hdec Hok];
    cbn [returned] in Hret; try discriminate.
  exists data, (restored data m). cbn [files_after].
  split; [exact Hfile|]. split; [apply file_bytes_after_insert|].
  rewrite len_restored by assumption. lia.
Qed.

Lemma reveal_file_shrinks_witness :
  let fs : gmap string node :=
    {[ "a.mp4"%string := RegularFile [x10; x20; x02; x01; x02; x00; x00; x00] ]} in
  exists data out : list byte,
    fs !! "a.mp4"%string = Some (RegularFile data) /\
    file_bytes (files_after (reveal_file fs "a.mp4")) "a.mp4" = Some out /\
    1 <= len out <= len data - 5.
Proof.
  exact (reveal_file_shrinks
           {[ "a.mp4"%string :=
                RegularFile [x10; x20; x02; x01; x02; x00; x00; x00] ]}
           "a.mp4" eq_refl).
Defined.

(** X6. A call prints nothing when it succeeds and exactly one line when it
    fails, and that line is never one of the two short-read reports (lines
    49 and 72): with the file opened at the size [stat] gave, both reads
    return all they were asked for. *)
Theorem reveal_file_reports_once (fs : gmap string node) (file_path : string) :
  (returned (reveal_file fs file_path) = true ->
   reports (reveal_file fs file_path) = []) /\
  (returned (reveal_file fs file_path) = false ->
   exists r : report,
     reports (reveal_file fs file_path) = [r] /\
     r <> TrailerReadError /\ r <> HeaderReadError).
Proof.
  destruct (reveal_file_run fs file_path); cbn [returned reports];
    (split; [intros; (reflexivity || discriminate)|]);
    intros Hret; try discriminate; eexists; repeat split; discriminate.
Qed.

Lemma reveal_file_reports_once_witness :
  (returned (reveal_file ∅ "a.mp4") = true -> reports (reveal_file ∅ "a.mp4") = []) /\
  exists r : report,
    reports (reveal_file ∅ "a.mp4") = [r] /\
    r <> TrailerReadError /\ r <> HeaderReadError.
Proof.
  split.
  - exact (proj1 (reveal_file_reports_once ∅ "a.mp4")).
  - exact (proj2 (reveal_file_reports_once ∅ "a.mp4") eq_refl).
Defined.

Section MaskIndependence.

Variables data1 data2 : list byte.
Variable k : Z.
Hypothesis same_len : len data1 = len data2.
Hypothesis agree : skip k data1 = skip k data2.
Hypothesis k_nonneg : 0 <= k.

Lemma skip_from (a : Z) (d : list byte) :
  0 <= k <= a -> skip a d = skip (a - k) (skip k d).
Proof.
  intros Ha. unfold skip. rewrite drop_drop. f_equal. lia.
Qed.

Lemma skip_agree (a : Z) : k <= a -> skip a data1 = skip a data2.
Proof.
  intros Ha. rewrite (skip_from a data1), (skip_from a data2) by lia.
  now rewrite agree.
Qed.

Lemma trailer_agree : k <= len data1 - 4 -> trailer data1 = trailer data2.
Proof.
  intros Hk. unfold trailer, mask_length_indicator_length.
  rewrite <- same_len. now apply skip_agree.
Qed.

Lemma restored_agree (m : Z) :
  k <= m -> k <= len data1 - 4 - m -> restored data1 m = restored data2 m.
Proof.
  intros Hm Hnew. unfold restored, disguised_header, mask_length_indicator_length.
  rewrite <- same_len.
  now rewrite (skip_agree m), (skip_agree (len data1 - 4 - m)).
Qed.

End MaskIndependence.

(** X7. What the disguise put over the start of the file does not matter:
    two files of the same size that agree from offset
    [min(m, fileSize - m - 4)] on, [m] being the announced header length,
    are both restored, to the same bytes. *)
Theorem reveal_file_ignores_mask (fs : gmap string node) (file_path : string)
    (data1 data2 : list byte) (m : Z) :
  len data1 = len data2 ->
  bytes_to_int (trailer data1) = Some m ->
  0 < m < len data1 - 4 ->
  skip (Z.min m (len data1 - m - 4)) data1
    = skip (Z.min m (len data1 - m - 4)) data2 ->
  let o1 := reveal_file (<[file_path := RegularFile data1]> fs) file_path in
  let o2 := reveal_file (<[file_path := RegularFile data2]> fs) file_path in
  returned o1 = true /\ returned o2 = true /\ files_after o1 = files_after o2.
Proof.
  intros Hlen Hdec Hok Hagree o1 o2. subst o1 o2.
  assert (Htr : trailer data1 = trailer data2)
    by (apply (trailer_agree _ _ _ Hlen Hagree); lia).
  assert (Hre : restored data1 m = restored data2 m)
    by (apply (restored_agree _ _ _ Hlen Hagree); lia).
  rewrite (reveal_file_restored _ file_path data1 m)
    by (try apply lookup_insert_eq; assumption || lia).
  rewrite (reveal_file_restored _ file_path data2 m)
    by (try apply lookup_insert_eq; rewrite <- ?Htr, <- ?Hlen; assumption || lia).
  cbn [returned files_after]. rewrite !insert_insert_eq, Hre. auto.
Qed.

Lemma reveal_file_ignores_mask_witness :
  let data1 := [x10; x20; x30; x40; x02; x01; x02; x00; x00; x00] in
  let data2 := [xaa; xbb; x30; x40; x02; x01; x02; x00; x00; x00] in
  let o1 := reveal_file {[ "a.mp4"%string := RegularFile data1 ]} "a.mp4" in
  let o2 := reveal_file {[ "a.mp4"%string := RegularFile data2 ]} "a.mp4" in
  returned o1 = true /\ returned o2 = true /\ files_after o1 = files_after o2.
Proof.
  refine (reveal_file_ignores_mask ∅ "a.mp4"
            [x10; x20; x30; x40; x02; x01; x02; x00; x00; x00]
            [xaa; xbb; x30; x40; x02; x01; x02; x00; x00; x00] 2
            eq_refl eq_refl _ eq_refl).
  vm_compute. split; reflexivity.
Defined.

(** ** remove_mp4_extension *)

Section NormalForm.

Import PurePath.
Local Open Scope string_scope.

(** Parsing the string of well-formed parts gives the parts back. *)
Lemma parse_str (r : string) (parts : list string) :
  is_root r -> Forall segment_ok parts ->
  parse_path (str (from_parsed_parts r parts)) = (r, parts).
Proof.
  intros Hr Hall. destruct (decide (parts = [])) as [-> | Hne].
  - destruct Hr as [-> | [-> | ->]]; reflexivity.
  - rewrite (app_removelast_last "" Hne) in Hall |- *.
    apply Forall_app in Hall as [Hinit Hlast].
    inversion Hlast as [|x ? Hx _]; subst.
    pose proof (segment_ok_nonempty _ Hx) as Hxne. destruct Hx as [Hseg Hnosep].
    unfold str. cbn [root tail from_parsed_parts].
    pose proof (format_nonempty r (removelast parts) _ Hxne) as Hf.
    apply String.eqb_neq in Hf. rewrite Hf.
    rewrite parse_format by assumption.
    cbn [List.filter]. now rewrite Hseg.
Qed.

Lemma Path_str_parts (r : string) (parts : list string) :
  is_root r -> Forall segment_ok parts ->
  root (Path (str (from_parsed_parts r parts))) = r /\
  tail (Path (str (from_parsed_parts r parts))) = parts.
Proof.
  intros Hr Hall. unfold Path. now rewrite parse_str.
Qed.

Lemma stem_segments (file_path : string) :
  lower (suffix (Path file_path)) = ".mp4" ->
  Forall segment_ok
    (removelast (tail (Path file_path))
     ++ List.filter is_segment [stem (Path file_path)])%list.
Proof.
  intros Hmatch.
  destruct (suffix_splits file_path (lower_nonempty _ Hmatch))
    as (_ & Hstem & Hnosep & Hinit).
  apply Forall_app. split; [exact Hinit|].
  cbn [List.filter].
  destruct (is_segment (stem (Path file_path))) eqn:Hseg; repeat constructor; auto.
Qed.

End NormalForm.

(** X8. A path with the [.mp4] extension is renamed within its directory:
    unless its name is a lone dot followed by the extension, the result has
    the parent of the input and, as its name, the stem of the input's
    name. *)
Theorem remove_mp4_extension_same_directory (file_path : string) :
  let p := PurePath.Path file_path in
  let q := PurePath.Path (remove_mp4_extension file_path) in
  lower (PurePath.suffix p) = ".mp4"%string ->
  PurePath.stem p <> "."%string ->
  PurePath.name q = PurePath.stem p /\
  PurePath.root q = PurePath.root p /\
  PurePath.tail (PurePath.parent q) = PurePath.tail (PurePath.parent p) /\
  PurePath.str (PurePath.parent q) = PurePath.str (PurePath.parent p).
Proof.
  intros p q Hmatch Hdot. subst q.
  destruct (suffix_splits file_path (lower_nonempty _ Hmatch))
    as (Hsplit & Hstem & Hnosep & Hinit). fold p in Hsplit, Hstem, Hnosep, Hinit.
  pose proof (stem_segments file_path Hmatch) as Hall. fold p in Hall.
  pose proof (parse_path_root file_path) as Hroot.
  rewrite <- Path_root in Hroot. fold p in Hroot.
  rewrite (remove_mp4_extension_parts file_path Hmatch). fold p.
  destruct (Path_str_parts _ _ Hroot Hall) as [Hr Ht].
  assert (Hseg : PurePath.is_segment (PurePath.stem p) = true).
  { unfold PurePath.is_segment. apply String.eqb_neq in Hstem, Hdot.
    now rewrite Hstem, Hdot. }
  cbn [List.filter] in Ht. rewrite Hseg in Ht.
  assert (Hparent : forall x : PurePath.t,
            PurePath.root x = PurePath.root p ->
            PurePath.tail x <> [] ->
            PurePath.parent x
              = PurePath.from_parsed_parts (PurePath.root p)
                                           (removelast (PurePath.tail x))).
  { intros x Hx Hne. unfold PurePath.parent. rewrite Hx.
    now destruct (PurePath.tail x). }
  cbn [List.filter] in Hr. rewrite Hseg in Hr.
  cbn [List.filter]. rewrite Hseg.
  split; [unfold PurePath.name; rewrite Ht; apply last_last|].
  split; [exact Hr|].
  rewrite (Hparent _ Hr) by (rewrite Ht; now destruct (removelast (PurePath.tail p))).
  rewrite (Hparent p eq_refl)
    by (rewrite Hsplit; now destruct (removelast (PurePath.tail p))).
  rewrite Ht, removelast_last. split; reflexivity.
Qed.

Lemma remove_mp4_extension_same_directory_witness :
  let p := PurePath.Path "a//b/1.zip.MP4" in
  let q := PurePath.Path (remove_mp4_extension "a//b/1.zip.MP4") in
  PurePath.name q = PurePath.stem p /\
  PurePath.root q = PurePath.root p /\
  PurePath.tail (PurePath.parent q) = PurePath.tail (PurePath.parent p) /\
  PurePath.str (PurePath.parent q) = PurePath.str (PurePath.parent p).
Proof.
  refine (remove_mp4_extension_same_directory "a//b/1.zip.MP4" eq_refl _).
  vm_compute. discriminate.
Defined.

Lemma remove_mp4_extension_differs (file_path : string) :
  lower (PurePath.suffix (PurePath.Path file_path)) = ".mp4"%string ->
  remove_mp4_extension file_path <> file_path.
Proof.
  intros Hmatch.
  destruct (suffix_splits file_path (lower_nonempty _ Hmatch))
    as (Hsplit & Hstem & Hnosep & Hinit).
  pose proof (stem_segments file_path Hmatch) as Hall.
  pose proof (parse_path_root file_path) as Hroot. rewrite <- Path_root in Hroot.
  pose proof (remove_mp4_extension_parts file_path Hmatch) as Hparts.
  destruct (Path_str_parts _ _ Hroot Hall) as [_ Ht].
  rewrite <- Hparts in Ht.
  intros Heq. rewrite Heq in Ht. rewrite Hsplit in Ht at 1.
  apply app_inv_head in Ht. cbn [List.filter] in Ht.
  destruct (PurePath.is_segment (PurePath.stem (PurePath.Path file_path)));
    [|discriminate].
  injection Ht as Ht.
  rewrite <- (str_app_nil_r (PurePath.stem (PurePath.Path file_path))) in Ht at 2.
  apply String.app_inj in Ht.
  now apply (lower_nonempty _ Hmatch).
Qed.

Lemma remove_mp4_extension_is_normal (file_path : string) :
  lower (PurePath.suffix (PurePath.Path file_path)) = ".mp4"%string ->
  PurePath.str (PurePath.Path (remove_mp4_extension file_path))
    = remove_mp4_extension file_path.
Proof.
  intros Hmatch.
  pose proof (stem_segments file_path Hmatch) as Hall.
  pose proof (parse_path_root file_path) as Hroot. rewrite <- Path_root in Hroot.
  pose proof (remove_mp4_extension_parts file_path Hmatch) as Hparts.
  destruct (Path_str_parts _ _ Hroot Hall) as [Hr Ht].
  rewrite <- Hparts in Hr, Ht.
  rewrite str_of_parts, Hr, Ht. now rewrite <- Hparts.
Qed.

(** X9. For a path with the [.mp4] extension the result is a different
    string, and it is in pathlib's normal form: making a path of it and
    printing that path gives it back. *)
Theorem remove_mp4_extension_changes (file_path : string) :
  lower (PurePath.suffix (PurePath.Path file_path)) = ".mp4"%string ->
  remove_mp4_extension file_path <> file_path /\
  PurePath.str (PurePath.Path (remove_mp4_extension file_path))
    = remove_mp4_extension file_path.
Proof.
  intros Hmatch. split.
  - now apply remove_mp4_extension_differs.
  - now apply remove_mp4_extension_is_normal.
Qed.

Lemma remove_mp4_extension_changes_witness :
  remove_mp4_extension "./d/..MP4" <> "./d/..MP4"%string /\
  PurePath.str (PurePath.Path (remove_mp4_extension "./d/..MP4"))
    = remove_mp4_extension "./d/..MP4".
Proof.
  exact (remove_mp4_extension_changes "./d/..MP4" eq_refl).
Defined.

(** ** process_file *)

Section ProcessFile.

Variable fs : gmap string node.
Variable file_path : string.

Lemma reveal_file_false_unchanged :
  returned (reveal_file fs file_path) = false ->
  files_after (reveal_file fs file_path) = fs.
Proof.
  intros Hret. destruct (reveal_file_run fs file_path);
    cbn [returned files_after] in *; (reflexivity || discriminate).
Qed.

Lemma os_rename_regular (files : gmap string node) (src dst : string)
    (data : list byte) :
  files !! src = Some (RegularFile data) ->
  (forall reported_size, files !! dst <> Some (Directory reported_size)) ->
  os_rename files src dst = inr (<[dst := RegularFile data]> (delete src files)).
Proof.
  intros Hsrc Hdst. unfold os_rename. rewrite Hsrc.
  destruct (files !! dst) as [[d|sz]|] eqn:E; try reflexivity.
  now destruct (Hdst sz).
Qed.

Lemma os_rename_onto_directory (files : gmap string node) (src dst : string)
    (data : list byte) (reported_size : Z) :
  files !! src = Some (RegularFile data) ->
  files !! dst = Some (Directory reported_size) ->
  os_rename files src dst = inl OSError.
Proof. intros Hsrc Hdst. unfold os_rename. now rewrite Hsrc, Hdst. Qed.

Variable data : list byte.
Variable m : Z.
Hypothesis normal : PurePath.str (PurePath.Path file_path) = file_path.
Hypothesis is_file : fs !! file_path = Some (RegularFile data).
Hypothesis size_ok : 4 < len data.
Hypothesis decoded : bytes_to_int (trailer data) = Some m.
Hypothesis mask_ok : 0 < m < len data - 4.

Let new_path := remove_mp4_extension file_path.
Let restored_files := <[file_path := RegularFile (restored data m)]> fs.

Lemma process_file_renamed :
  (forall reported_size, fs !! new_path <> Some (Directory reported_size)) ->
  process_file fs file_path =
    mkProcessed true
      [RenamedLine (PurePath.name (PurePath.Path file_path))
                   (PurePath.name (PurePath.Path new_path))]
      (<[new_path := RegularFile (restored data m)]> (delete file_path restored_files)).
Proof.
  intros Hdst. unfold process_file.
  rewrite (reveal_file_restored fs file_path data m) by assumption.
  cbn [returned reports files_after map app]. rewrite normal. fold new_path.
  fold restored_files.
  rewrite (os_rename_regular restored_files file_path new_path (restored data m)).
  - reflexivity.
  - apply lookup_insert_eq.
  - intros sz. unfold restored_files.
    destruct (decide (file_path = new_path)) as [<- | Hne].
    + rewrite lookup_insert_eq. discriminate.
    + rewrite lookup_insert_ne by assumption. apply Hdst.
Qed.

Lemma process_file_rename_failed (reported_size : Z) :
  fs !! new_path = Some (Directory reported_size) ->
  process_file fs file_path =
    mkProcessed false [RenameFailed file_path new_path OSError]
                restored_files.
Proof.
  intros Hdst. unfold process_file.
  rewrite (reveal_file_restored fs file_path data m) by assumption.
  cbn [returned reports files_after map app]. rewrite normal. fold new_path.
  fold restored_files.
  rewrite (os_rename_onto_directory restored_files file_path new_path
             (restored data m) reported_size).
  - reflexivity.
  - apply lookup_insert_eq.
  - unfold restored_files. rewrite lookup_insert_ne; [exact Hdst|].
    intros E. rewrite <- E in Hdst. congruence.
Qed.

End ProcessFile.

(** X10. When [reveal_file] fails, [process_file] returns [False] without
    renaming anything: the file system is as before, and the last line
    printed is the failure line of line 129. *)
Theorem process_file_reveal_failed (fs : gmap string node) (file_path : string) :
  returned (reveal_file fs file_path) = false ->
  let r := process_file fs file_path in
  done r = false /\ files_then r = fs /\
  said r = map Revealed (reports (reveal_file fs file_path))
           ++ [RevealFailed (PurePath.name (PurePath.Path file_path))].
Proof.
  intros Hret r. subst r. unfold process_file. rewrite Hret.
  cbn [done files_then said].
  split; [reflexivity|]. split; [now apply reveal_file_false_unchanged | reflexivity].
Qed.

Lemma process_file_reveal_failed_witness :
  let fs : gmap string node := {[ "a.mp4"%string := RegularFile [x01; x02] ]} in
  let r := process_file fs "a.mp4" in
  done r = false /\ files_then r = fs /\
  said r = map Revealed (reports (reveal_file fs "a.mp4"))
           ++ [RevealFailed (PurePath.name (PurePath.Path "a.mp4"))].
Proof.
  exact (process_file_reveal_failed
           {[ "a.mp4"%string := RegularFile [x01; x02] ]} "a.mp4" eq_refl).
Defined.

(** X11. For a path in normal form that names a validly disguised file,
    when the new path is not a directory: [process_file] returns [True],
    the new path names the restored bytes (replacing whatever file it named
    before), the old path names nothing any more unless it is the new path,
    and every other path is untouched. *)
Theorem process_file_restores_and_renames (fs : gmap string node)
    (file_path : string) (data : list byte) (m : Z) :
  PurePath.str (PurePath.Path file_path) = file_path ->
  fs !! file_path = Some (RegularFile data) ->
  4 < len data ->
  bytes_to_int (trailer data) = Some m ->
  0 < m < len data - 4 ->
  let new_path := remove_mp4_extension file_path in
  (forall reported_size, fs !! new_path <> Some (Directory reported_size)) ->
  let r := process_file fs file_path in
  done r = true /\
  files_then r !! new_path = Some (RegularFile (restored data m)) /\
  (new_path <> file_path -> files_then r !! file_path = None) /\
  (forall other : string,
     other <> file_path -> other <> new_path ->
     files_then r !! other = fs !! other).
Proof.
  intros Hnormal Hfile Hsize Hdec Hok new_path Hdst r. subst r.
  rewrite (process_file_renamed fs file_path data m) by assumption.
  cbn [done files_then]. fold new_path.
  split; [reflexivity|]. split; [apply lookup_insert_eq|]. split.
  - intros Hne. rewrite lookup_insert_ne by assumption. apply lookup_delete_eq.
  - intros other Hold Hnew.
    rewrite lookup_insert_ne, lookup_delete_ne, lookup_insert_ne by congruence.
    reflexivity.
Qed.

Lemma process_file_restores_and_renames_witness :
  let data := [x10; x20; x02; x01; x02; x00; x00; x00] in
  let fs : gmap string node :=
    {[ "d/1.zip.mp4"%string := RegularFile data ]} in
  let r := process_file fs "d/1.zip.mp4" in
  done r = true /\
  files_then r !! remove_mp4_extension "d/1.zip.mp4"
    = Some (RegularFile (restored data 2)) /\
  (remove_mp4_extension "d/1.zip.mp4" <> "d/1.zip.mp4"%string ->
   files_then r !! "d/1.zip.mp4"%string = None) /\
  (forall other : string,
     other <> "d/1.zip.mp4"%string ->
     other <> remove_mp4_extension "d/1.zip.mp4" ->
     files_then r !! other = fs !! other).
Proof.
  refine (process_file_restores_and_renames
            {[ "d/1.zip.mp4"%string :=
                 RegularFile [x10; x20; x02; x01; x02; x00; x00; x00] ]}
            "d/1.zip.mp4" [x10; x20; x02; x01; x02; x00; x00; x00] 2
            eq_refl eq_refl _ eq_refl _ _).
  - reflexivity.
  - vm_compute. split; reflexivity.
  - intros sz. vm_compute. discriminate.
Defined.

(** X12. A [False] from [process_file] does not mean an untouched file:
    when the new path names a directory, the rename fails after the file
    has been restored; the one line printed is the rename-failed line of
    line 126 with the two paths, and the restored (shorter) bytes stay
    under the old name. *)
Theorem process_file_rename_failure_keeps_restored (fs : gmap string node)
    (file_path : string) (data : list byte) (m reported_size : Z) :
  PurePath.str (PurePath.Path file_path) = file_path ->
  fs !! file_path = Some (RegularFile data) ->
  4 < len data ->
  bytes_to_int (trailer data) = Some m ->
  0 < m < len data - 4 ->
  fs !! remove_mp4_extension file_path = Some (Directory reported_size) ->
  let r := process_file fs file_path in
  done r = false /\
  files_then r !! file_path = Some (RegularFile (restored data m)) /\
  restored data m <> data /\
  (forall other : string,
     other <> file_path -> files_then r !! other = fs !! other) /\
  exists e : exn,
    said r = [RenameFailed file_path (remove_mp4_extension file_path) e].
Proof.
  intros Hnormal Hfile Hsize Hdec Hok Hdir r. subst r.
  rewrite (process_file_rename_failed fs file_path data m Hnormal Hfile Hsize
             Hdec Hok reported_size Hdir).
  cbn [done files_then said].
  split; [reflexivity|]. split; [apply lookup_insert_eq|].
  split; [|split].
  - intros E. pose proof (len_restored data m Hok) as Hl. rewrite E in Hl. lia.
  - intros other Hne. now apply lookup_insert_ne.
  - now eexists.
Qed.

Lemma process_file_rename_failure_keeps_restored_witness :
  let data := [x10; x20; x02; x01; x02; x00; x00; x00] in
  let fs : gmap string node :=
    <[ "d/..mp4"%string := RegularFile data ]> {[ "d"%string := Directory 4096 ]} in
  let r := process_file fs "d/..mp4" in
  done r = false /\
  files_then r !! "d/..mp4"%string = Some (RegularFile (restored data 2)) /\
  restored data 2 <> data /\
  (forall other : string,
     other <> "d/..mp4"%string -> files_then r !! other = fs !! other) /\
  exists e : exn,
    said r = [RenameFailed "d/..mp4" (remove_mp4_extension "d/..mp4") e].
Proof.
  refine (process_file_rename_failure_keeps_restored
            (<[ "d/..mp4"%string :=
                  RegularFile [x10; x20; x02; x01; x02; x00; x00; x00] ]>
               {[ "d"%string := Directory 4096 ]})
            "d/..mp4" [x10; x20; x02; x01; x02; x00; x00; x00] 2 4096
            eq_refl eq_refl _ eq_refl _ eq_refl).
  - reflexivity.
  - vm_compute. split; reflexivity.
Defined.

(** X13. For a path in normal form, [process_file] returns [True] exactly
    when [reveal_file] does and the new path does not name a directory. *)
Theorem process_file_succeeds_iff (fs : gmap string node) (file_path : string) :
  PurePath.str (PurePath.Path file_path) = file_path ->
  done (process_file fs file_path) = true <->
  returned (reveal_file fs file_path) = true /\
  forall reported_size,
    fs !! remove_mp4_extension file_path <> Some (Directory reported_size).
Proof.
  intros Hnormal. split.
  - intros Hdone.
    destruct (returned (reveal_file fs file_path)) eqn:Hret.
    2:{ unfold process_file in Hdone. rewrite Hret in Hdone. discriminate. }
    split; [reflexivity|]. intros sz Hdir.
    destruct (reveal_file_run fs file_path) as [| | | |data m Hfile Hsize Hdec Hok];
      cbn [returned] in Hret; try discriminate.
    rewrite (process_file_rename_failed fs file_path data m Hnormal Hfile Hsize
               Hdec Hok sz Hdir) in Hdone.
    discriminate.
  - intros [Hret Hdst].
    destruct (reveal_file_run fs file_path) as [| | | |data m Hfile Hsize Hdec Hok];
      cbn [returned] in Hret; try discriminate.
    now rewrite (process_file_renamed fs file_path data m).
Qed.

Lemma process_file_succeeds_iff_witness :
  let fs : gmap string node :=
    {[ "1.zip.mp4"%string := RegularFile [x99; x99; x03; x02; x01; x03; x00; x00; x00] ]} in
  done (process_file fs "1.zip.mp4") = true <->
  returned (reveal_file fs "1.zip.mp4") = true /\
  forall reported_size,
    fs !! remove_mp4_extension "1.zip.mp4" <> Some (Directory reported_size).
Proof.
  exact (process_file_succeeds_iff
           {[ "1.zip.mp4"%string :=
                RegularFile [x99; x99; x03; x02; x01; x03; x00; x00; x00] ]}
           "1.zip.mp4" eq_refl).
Defined.

(** ** ask_confirmation *)

Section Confirmation.

Variable strip : string -> string.
Variable upper : string -> string.

Let response (typed : string) : string := upper (strip typed).
Let unclear (typed : string) : Prop :=
  accepts (response typed) = false /\ declines (response typed) = false.

Lemma confirm_loop_decides (ignored : list string) (typed : string)
    (rest : list string) :
  Forall unclear ignored ->
  accepts (response typed) || declines (response typed) = true ->
  confirm_loop strip upper (ignored ++ typed :: rest) =
    mkAsked (Some (accepts (response typed)))
            (concat (replicate (length ignored) [Prompt; Text 191]) ++ [Prompt])
            rest.
Proof.
  intros Hall Hclear. induction Hall as [|t ignored [Hy Hn] _ IH].
  - cbn [app confirm_loop length replicate concat]. fold (response typed).
    unfold accepts, declines in Hclear |- *.
    destruct (String.eqb (response typed) "Y" || String.eqb (response typed) "YES");
      [reflexivity|].
    cbn [orb] in Hclear. now rewrite Hclear.
  - cbn [app confirm_loop length replicate concat]. fold (response t).
    unfold accepts, declines in Hy, Hn. rewrite Hy, Hn, IH. reflexivity.
Qed.

Lemma confirm_loop_exhausted (inputs : list string) :
  Forall unclear inputs ->
  confirm_loop strip upper inputs =
    mkAsked None
            (concat (replicate (length inputs) [Prompt; Text 191]) ++ [Prompt]) [].
Proof.
  induction 1 as [|t inputs [Hy Hn] _ IH]; [reflexivity|].
  cbn [confirm_loop length replicate concat]. fold (response t).
  unfold accepts, declines in Hy, Hn. rewrite Hy, Hn, IH. reflexivity.
Qed.

(** Every input stream is either exhausted by unclear lines or has a
    first clear one. *)
Lemma first_clear (inputs : list string) :
  Forall unclear inputs \/
  exists ignored typed rest,
    inputs = ignored ++ typed :: rest /\ Forall unclear ignored /\
    accepts (response typed) || declines (response typed) = true.
Proof.
  induction inputs as [|t inputs IH]; [left; constructor|].
  destruct (accepts (response t) || declines (response t)) eqn:Ht.
  - right. exists [], t, inputs. repeat split; auto.
  - apply orb_false_iff in Ht. destruct IH as [Hall | (ig & ty & rest & -> & Hall & Hc)].
    + left. now constructor.
    + right. exists (t :: ig), ty, rest. repeat split; auto.
Qed.

End Confirmation.

(** X14. The first typed line that reads, stripped and upper-cased, as Y,
    YES, N or NO decides: the answer is [True] exactly for Y and YES, the
    lines typed after it are left unread, and the output ends with one
    prompt and retry line (line 191) for each line before it, then the
    prompt that was answered. *)
Theorem ask_confirmation_first_clear_answer
    (strip upper : string -> string)
    (ignored : list string) (typed : string) (rest : list string)
    (target_path : string) (file_count : Z) (file_list : list string) :
  Forall (fun t => accepts (upper (strip t)) = false /\
                   declines (upper (strip t)) = false) ignored ->
  accepts (upper (strip typed)) || declines (upper (strip typed)) = true ->
  let a := ask_confirmation strip upper (ignored ++ typed :: rest)
                            target_path file_count file_list in
  answer a = Some (accepts (upper (strip typed))) /\
  unread a = rest /\
  exists before : list line,
    shown a = before
              ++ concat (replicate (length ignored) [Prompt; Text 191])
              ++ [Prompt].
Proof.
  intros Hall Hclear a. subst a. unfold ask_confirmation.
  rewrite (confirm_loop_decides strip upper ignored typed rest Hall Hclear).
  cbn [answer unread shown]. split; [reflexivity|]. split; [reflexivity|].
  exists ([Text 156; Text 157; Text 158; TargetPath target_path;
           FoundCount file_count; PreviewHeader 5]
          ++ preview 5 file_list
          ++ (if file_count >? 5 then [MoreFiles (file_count - 5)] else [])
          ++ [Text 172; Text 173; Text 174; Text 175; Text 176;
              Text 179; Text 180; Text 181; Text 182]).
  rewrite <- !app_assoc. reflexivity.
Qed.

Lemma ask_confirmation_first_clear_answer_witness :
  let a := ask_confirmation strip_ascii upper_ascii
             ["maybe"; "  yes "; "n"] "d" 1 ["d/1.zip.mp4"] in
  answer a = Some true /\
  unread a = ["n"%string] /\
  exists before : list line,
    shown a = before ++ concat (replicate 1 [Prompt; Text 191]) ++ [Prompt].
Proof.
  refine (ask_confirmation_first_clear_answer strip_ascii upper_ascii
            ["maybe"%string] "  yes " ["n"%string] "d" 1 ["d/1.zip.mp4"%string] _ _).
  - repeat constructor.
  - reflexivity.
Defined.

(** X15. The answer is [True] only if some typed line reads as Y or YES,
    and the call ends in [EOFError] exactly when no typed line reads as Y,
    YES, N or NO; then every line has been read. *)
Theorem ask_confirmation_needs_yes
    (strip upper : string -> string) (inputs : list string)
    (target_path : string) (file_count : Z) (file_list : list string) :
  let a := ask_confirmation strip upper inputs target_path file_count file_list in
  (answer a = Some true ->
   Exists (fun t => accepts (upper (strip t)) = true) inputs) /\
  (answer a = None <->
   Forall (fun t => accepts (upper (strip t)) = false /\
                    declines (upper (strip t)) = false) inputs) /\
  (answer a = None -> unread a = []).
Proof.
  intros a. subst a. unfold ask_confirmation. cbn [answer unread].
  destruct (first_clear strip upper inputs)
    as [Hall | (ig & ty & rest & -> & Hall & Hc)].
  - rewrite (confirm_loop_exhausted strip upper inputs Hall). cbn [answer unread].
    split; [discriminate|]. split; [tauto | reflexivity].
  - rewrite (confirm_loop_decides strip upper ig ty rest Hall Hc).
    cbn [answer unread]. split; [|split; [split|]]; try discriminate.
    + intros [= Hyes]. apply Exists_app. right. now constructor.
    + intros Hnone. apply Forall_app in Hnone as [_ Hty].
      inversion Hty as [|? ? [Hy Hn] _]; subst.
      rewrite Hy, Hn in Hc. discriminate.
Qed.

Lemma ask_confirmation_needs_yes_witness :
  let a := ask_confirmation strip_ascii upper_ascii
             ["ok"; "y"] "d" 1 ["d/1.zip.mp4"] in
  Exists (fun t => accepts (upper_ascii (strip_ascii t)) = true)
         ["ok"%string; "y"%string].
Proof.
  exact (proj1 (ask_confirmation_needs_yes strip_ascii upper_ascii
                  ["ok"%string; "y"%string] "d" 1 ["d/1.zip.mp4"%string])
               eq_refl).
Defined.

Section Preview.

Variable strip : string -> string.
Variable upper : string -> string.

Lemma confirm_loop_lines (inputs : list string) (l : line) :
  l ∈ shown (confirm_loop strip upper inputs) -> l = Prompt \/ l = Text 191.
Proof.
  induction inputs as [|t inputs IH]; cbn [confirm_loop].
  - intros ->%list_elem_of_singleton. now left.
  - destruct (_ || _); [intros ->%list_elem_of_singleton; now left|].
    destruct (_ || _); [intros ->%list_elem_of_singleton; now left|].
    cbn [shown]. rewrite !elem_of_cons. intros [-> | [-> | Hin]]; auto.
Qed.

Lemma preview_lines (file_list : list string) (l : line) :
  l ∈ preview 5 file_list <->
  exists (i : nat) (file_path : string),
    (i < 5)%nat /\ file_list !! i = Some file_path /\
    l = PreviewItem (Z.of_nat i + 1) (PurePath.name (PurePath.Path file_path)).
Proof.
  unfold preview, first_n. rewrite elem_of_lookup_imap. split.
  - intros (i & y & -> & Hy). apply lookup_take_Some in Hy as [Hy Hi].
    exists i, y. repeat split; auto.
  - intros (i & y & Hi & Hy & ->). exists i, y. split; [reflexivity|].
    apply lookup_take_Some. split; auto.
Qed.

End Preview.

(** X16. The preview names only the first five files, numbered from 1 in
    the order of the list; a line telling how many more there are is shown
    exactly when the count passed in exceeds five, and it tells that count
    less five. *)
Theorem ask_confirmation_preview
    (strip upper : string -> string) (inputs : list string)
    (target_path : string) (file_count : Z) (file_list : list string) :
  let a := ask_confirmation strip upper inputs target_path file_count file_list in
  (forall (number : Z) (file_name : string),
     PreviewItem number file_name ∈ shown a <->
     exists (i : nat) (file_path : string),
       (i < 5)%nat /\ file_list !! i = Some file_path /\
       number = Z.of_nat i + 1 /\
       file_name = PurePath.name (PurePath.Path file_path)) /\
  (forall others : Z,
     MoreFiles others ∈ shown a <-> 5 < file_count /\ others = file_count - 5).
Proof.
  intros a. subst a. unfold ask_confirmation. cbn [shown]. split.
  - intros number file_name. rewrite !elem_of_app, preview_lines. split.
    + intros [Hin | [(i & fp & Hi & Hfp & [= -> ->]) | [Hin | [Hin | Hin]]]].
      * repeat (apply elem_of_cons in Hin as [Hin | Hin]; [discriminate|]).
        now apply elem_of_nil in Hin.
      * now exists i, fp.
      * destruct (file_count >? 5); [apply list_elem_of_singleton in Hin; discriminate|].
        now apply elem_of_nil in Hin.
      * repeat (apply elem_of_cons in Hin as [Hin | Hin]; [discriminate|]).
        now apply elem_of_nil in Hin.
      * apply confirm_loop_lines in Hin as [Hin | Hin]; discriminate.
    + intros (i & fp & Hi & Hfp & -> & ->). right. left. now exists i, fp.
  - intros others. rewrite !elem_of_app. split.
    + intros [Hin | [Hin | [Hin | [Hin | Hin]]]].
      * repeat (apply elem_of_cons in Hin as [Hin | Hin]; [discriminate|]).
        now apply elem_of_nil in Hin.
      * apply preview_lines in Hin as (i & fp & _ & _ & Hin). discriminate.
      * destruct (Z.gtb_spec file_count 5); [|now apply elem_of_nil in Hin].
        apply list_elem_of_singleton in Hin. injection Hin as ->. lia.
      * repeat (apply elem_of_cons in Hin as [Hin | Hin]; [discriminate|]).
        now apply elem_of_nil in Hin.
      * apply confirm_loop_lines in Hin as [Hin | Hin]; discriminate.
    + intros [Hmore ->]. right. right. left.
      destruct (Z.gtb_spec file_count 5); [|lia]. now apply list_elem_of_singleton.
Qed.

(** ** find_all_mp4_files *)

Section Reparse.

Import PurePath.
Local Open Scope string_scope.

Variable s : string.

Lemma Path_str_root : root (Path (str (Path s))) = root (Path s).
Proof.
  rewrite str_of_parts.
  apply Path_str_parts.
  - rewrite Path_root. apply parse_path_root.
  - rewrite Path_tail. apply parse_path_segments.
Qed.

Lemma Path_str_tail : tail (Path (str (Path s))) = tail (Path s).
Proof.
  rewrite str_of_parts.
  apply Path_str_parts.
  - rewrite Path_root. apply parse_path_root.
  - rewrite Path_tail. apply parse_path_segments.
Qed.

Lemma Path_str_normal : str (Path (str (Path s))) = str (Path s).
Proof. unfold str at 1 3. now rewrite Path_str_root, Path_str_tail. Qed.

Lemma Path_str_suffix : suffix (Path (str (Path s))) = suffix (Path s).
Proof. unfold suffix, name. now rewrite Path_str_tail. Qed.

End Reparse.

(** X17. Given a path that names a regular file, [find_all_mp4_files]
    prints nothing and returns that file alone, as the normal form of the
    path, when its final extension is [.mp4] in any letter case, and nothing
    otherwise; whatever it returns is in normal form, has that extension and
    names the file. Given a path that names nothing it returns nothing and
    prints the line of line 148. *)
Theorem find_all_mp4_files_single
    (rglob_mp4 : gmap string node -> PurePath.t -> list PurePath.t)
    (fs : gmap string node) (root_path : string) :
  let key := PurePath.str (PurePath.Path root_path) in
  let found := find_all_mp4_files rglob_mp4 fs root_path in
  (forall data : list byte,
     fs !! key = Some (RegularFile data) ->
     snd found = [] /\
     (lower (PurePath.suffix (PurePath.Path root_path)) = ".mp4"%string ->
      fst found = [key]) /\
     (lower (PurePath.suffix (PurePath.Path root_path)) <> ".mp4"%string ->
      fst found = []) /\
     (forall f : string,
        f ∈ fst found ->
        PurePath.str (PurePath.Path f) = f /\
        lower (PurePath.suffix (PurePath.Path f)) = ".mp4"%string /\
        fs !! f = Some (RegularFile data))) /\
  (fs !! key = None -> found = ([], [PathMissing root_path])).
Proof.
  intros key found. subst key found. unfold find_all_mp4_files. split.
  - intros data Hfile. rewrite Hfile.
    destruct (String.eqb_spec (lower (PurePath.suffix (PurePath.Path root_path)))
                              ".mp4") as [Hm | Hm]; cbn [fst snd].
    + split; [reflexivity|]. split; [reflexivity|]. split; [congruence|].
      intros f ->%list_elem_of_singleton.
      split; [apply Path_str_normal|]. split; [|exact Hfile].
      now rewrite Path_str_suffix.
    + split; [reflexivity|]. split; [congruence|]. split; [reflexivity|].
      intros f Hf. now apply elem_of_nil in Hf.
  - intros Hnone. now rewrite Hnone.
Qed.

Lemma find_all_mp4_files_single_witness :
  let fs : gmap string node := {[ "d/1.zip.MP4"%string := RegularFile [x01] ]} in
  fst (find_all_mp4_files (fun _ _ => []) fs "./d//1.zip.MP4") = ["d/1.zip.MP4"%string]
  /\ find_all_mp4_files (fun _ _ => []) fs "e.mp4" = ([], [PathMissing "e.mp4"]).
Proof.
  pose proof (find_all_mp4_files_single (fun _ _ => [])
                {[ "d/1.zip.MP4"%string := RegularFile [x01] ]}
                "./d//1.zip.MP4") as [Hfile _].
  pose proof (find_all_mp4_files_single (fun _ _ => [])
                {[ "d/1.zip.MP4"%string := RegularFile [x01] ]}
                "e.mp4") as [_ Hmissing].
  split.
  - exact (proj1 (proj2 (Hfile [x01] eq_refl)) eq_refl).
  - exact (Hmissing eq_refl).
Defined.

(** ** process_directory *)

Section Statistics.

Lemma increment_lookup (key other : string) (stats : gmap string Z) :
  increment key stats !!! other
    = if decide (key = other) then stats !!! key + 1 else stats !!! other.
Proof.
  unfold increment. destruct (decide (key = other)) as [<- | Hne].
  - apply lookup_total_insert_eq.
  - now apply lookup_total_insert_ne.
Qed.

Lemma increment_dom (key : string) (stats : gmap string Z) :
  is_Some (stats !! key) -> dom (increment key stats) = dom stats.
Proof. intros H. unfold increment. now apply dom_insert_lookup_L. Qed.

(** The loop counts every file once, as a success or as a failure, and
    touches no other entry. *)
Lemma process_each_counts (i : Z) (mp4_files : list string)
    (stats : gmap string Z) (fs : gmap string node) :
  is_Some (stats !! "success"%string) -> is_Some (stats !! "failed"%string) ->
  let stats' := fst (fst (process_each i mp4_files stats fs)) in
  stats' !!! "success"%string + stats' !!! "failed"%string
    = stats !!! "success"%string + stats !!! "failed"%string + len mp4_files /\
  stats !!! "success"%string <= stats' !!! "success"%string /\
  stats !!! "failed"%string <= stats' !!! "failed"%string /\
  stats' !!! "total"%string = stats !!! "total"%string /\
  stats' !!! "skipped"%string = stats !!! "skipped"%string /\
  dom stats' = dom stats.
Proof.
  revert i stats fs. induction mp4_files as [|f rest IH]; intros i stats fs Hs Hf.
  - cbn. unfold len. cbn. repeat split; lia.
  - cbn [process_each].
    set (r := process_file fs f).
    set (stats1 := if done r then increment "success" stats
                   else increment "failed" stats).
    assert (Hs1 : is_Some (stats1 !! "success"%string)).
    { subst stats1. destruct (done r); unfold increment;
        rewrite lookup_insert; case_decide; eauto. }
    assert (Hf1 : is_Some (stats1 !! "failed"%string)).
    { subst stats1. destruct (done r); unfold increment;
        rewrite lookup_insert; case_decide; eauto. }
    specialize (IH (i + 1) stats1 (files_then r) Hs1 Hf1).
    destruct (process_each (i + 1) rest stats1 (files_then r)) as [[stats2 out] fs2].
    cbn [fst] in IH |- *.
    destruct IH as (Hsum & Hsle & Hfle & Htot & Hskip & Hdom).
    assert (Hlen : len (f :: rest) = len rest + 1) by (unfold len; cbn; lia).
    rewrite Hlen, Hdom. subst stats1.
    destruct (done r); rewrite ?increment_lookup in *;
      repeat case_decide; try congruence;
      (repeat split; try lia); now apply increment_dom.
Qed.

Lemma process_each_nothing (i : Z) (stats : gmap string Z) (fs : gmap string node) :
  process_each i [] stats fs = (stats, [], fs).
Proof. reflexivity. Qed.

End Statistics.

Section Directory.

Variable strip : string -> string.
Variable upper : string -> string.
Variable rglob_mp4 : gmap string node -> PurePath.t -> list PurePath.t.

Lemma total_stats_lookup (n : Z) :
  let stats := <["total"%string := n]> initial_stats in
  stats !!! "total"%string = n /\ stats !!! "success"%string = 0 /\
  stats !!! "failed"%string = 0 /\ stats !!! "skipped"%string = 0 /\
  dom stats = list_to_set stats_keys /\
  is_Some (stats !! "success"%string) /\ is_Some (stats !! "failed"%string).
Proof.
  cbn zeta. split; [apply lookup_total_insert_eq|].
  rewrite !lookup_total_insert_ne by discriminate.
  rewrite !lookup_insert_ne by discriminate.
  rewrite dom_insert_lookup_L by (now exists 0).
  repeat split; try reflexivity; now eexists.
Qed.

(** Without a line that reads as Y or YES the answer is not [True]. *)
Lemma ask_confirmation_not_yes (inputs : list string) (target_path : string)
    (file_count : Z) (file_list : list string) :
  Forall (fun t => accepts (upper (strip t)) = false) inputs ->
  answer (ask_confirmation strip upper inputs target_path file_count file_list)
    <> Some true.
Proof.
  intros Hno. unfold ask_confirmation. cbn [answer].
  destruct (first_clear strip upper inputs)
    as [Hall | (ig & ty & rest & -> & Hall & Hc)].
  - now rewrite (confirm_loop_exhausted strip upper inputs Hall).
  - rewrite (confirm_loop_decides strip upper ig ty rest Hall Hc). cbn [answer].
    apply Forall_app in Hno as [_ Hty]. inversion Hty as [|? ? Hy _]; subst.
    rewrite Hy. discriminate.
Qed.

End Directory.

(** X18. The statistics [process_directory] returns have the four keys
    only; [total] is the number of files found and [skipped] is 0; and
    either every file found was counted once, as a success or as a failure,
    or none was processed, both counts are 0 and the file system is as
    before. *)
Theorem process_directory_accounts
    (strip upper : string -> string)
    (rglob_mp4 : gmap string node -> PurePath.t -> list PurePath.t)
    (fs : gmap string node) (inputs : list string) (dir_path : string)
    (stats : gmap string Z) :
  let run := process_directory strip upper rglob_mp4 fs inputs dir_path in
  let found := fst (find_all_mp4_files rglob_mp4 fs dir_path) in
  stats_returned run = Some stats ->
  dom stats = list_to_set stats_keys /\
  stats !!! "total"%string = len found /\
  stats !!! "skipped"%string = 0 /\
  0 <= stats !!! "success"%string /\ 0 <= stats !!! "failed"%string /\
  (stats !!! "success"%string + stats !!! "failed"%string = len found \/
   (stats !!! "success"%string = 0 /\ stats !!! "failed"%string = 0 /\
    files_finally run = fs)).
Proof.
  intros run found. subst run found. unfold process_directory.
  destruct (find_all_mp4_files rglob_mp4 fs dir_path) as [mp4_files out].
  cbn [fst].
  destruct (total_stats_lookup (len mp4_files))
    as (Ht & Hs & Hf & Hk & Hdom & Hsome_s & Hsome_f).
  destruct mp4_files as [|f rest].
  { cbn [stats_returned files_finally]. intros [= <-].
    rewrite Ht, Hs, Hf, Hk. repeat split; auto; lia. }
  set (files := f :: rest) in *.
  destruct (answer (ask_confirmation strip upper inputs dir_path _ files))
    as [[|]|]; cbn [stats_returned files_finally].
  - pose proof (process_each_counts 1 files _ fs Hsome_s Hsome_f) as Hcount.
    destruct (process_each 1 files (<["total"%string:=len files]> initial_stats) fs)
      as [[stats' out'] fs'].
    cbn [fst stats_returned files_finally] in *.
    destruct Hcount as (Hsum & Hsle & Hfle & Htot & Hskip & Hd).
    intros [= <-]. rewrite Hd, Htot, Hskip, Ht, Hk.
    repeat split; auto; lia.
  - intros [= <-]. rewrite Ht, Hs, Hf, Hk. repeat split; auto; lia.
  - discriminate.
Qed.

Lemma process_directory_accounts_witness :
  let fs : gmap string node :=
    {[ "1.zip.mp4"%string := RegularFile [x99; x99; x03; x02; x01; x03; x00; x00; x00] ]} in
  let run := process_directory strip_ascii upper_ascii (fun _ _ => [])
                               fs ["y"%string] "1.zip.mp4" in
  exists stats : gmap string Z,
    stats_returned run = Some stats /\
    dom stats = list_to_set stats_keys /\
    stats !!! "total"%string = 1 /\
    stats !!! "skipped"%string = 0.
Proof.
  eexists. split; [reflexivity|].
  pose proof (process_directory_accounts strip_ascii upper_ascii (fun _ _ => [])
                {[ "1.zip.mp4"%string :=
                     RegularFile [x99; x99; x03; x02; x01; x03; x00; x00; x00] ]}
                ["y"%string] "1.zip.mp4" _ eq_refl) as (Hd & Ht & Hk & _).
  split; [exact Hd|]. split; [exact Ht | exact Hk].
Defined.

(** X19. Without a typed line that reads as Y or YES, [process_directory]
    changes no file, whatever it found; if it returns statistics, they
    count no success and no failure. *)
Theorem process_directory_needs_yes
    (strip upper : string -> string)
    (rglob_mp4 : gmap string node -> PurePath.t -> list PurePath.t)
    (fs : gmap string node) (inputs : list string) (dir_path : string) :
  Forall (fun t => accepts (upper (strip t)) = false) inputs ->
  let run := process_directory strip upper rglob_mp4 fs inputs dir_path in
  files_finally run = fs /\
  (forall stats : gmap string Z,
     stats_returned run = Some stats ->
     stats !!! "success"%string = 0 /\ stats !!! "failed"%string = 0).
Proof.
  intros Hno run. subst run. unfold process_directory.
  destruct (find_all_mp4_files rglob_mp4 fs dir_path) as [mp4_files out].
  destruct (total_stats_lookup (len mp4_files)) as (Ht & Hs & Hf & _).
  destruct mp4_files as [|f rest].
  { cbn [stats_returned files_finally]. split; [reflexivity|].
    intros stats [= <-]. auto. }
  set (files := f :: rest) in *.
  pose proof (ask_confirmation_not_yes strip upper inputs dir_path
                (<["total"%string:=len files]> initial_stats !!! "total"%string)
                files Hno) as Hnot.
  destruct (answer (ask_confirmation strip upper inputs dir_path _ files))
    as [[|]|]; cbn [stats_returned files_finally].
  - congruence.
  - split; [reflexivity|]. intros stats [= <-]. auto.
  - split; [reflexivity|]. discriminate.
Qed.

Lemma process_directory_needs_yes_witness :
  let fs : gmap string node :=
    {[ "1.zip.mp4"%string := RegularFile [x99; x99; x03; x02; x01; x03; x00; x00; x00] ]} in
  let run := process_directory strip_ascii upper_ascii (fun _ _ => [])
                               fs ["yep"%string; "no"%string] "1.zip.mp4" in
  files_finally run = fs /\
  (forall stats : gmap string Z,
     stats_returned run = Some stats ->
     stats !!! "success"%string = 0 /\ stats !!! "failed"%string = 0).
Proof.
  refine (process_directory_needs_yes strip_ascii upper_ascii (fun _ _ => [])
            {[ "1.zip.mp4"%string :=
                 RegularFile [x99; x99; x03; x02; x01; x03; x00; x00; x00] ]}
            ["yep"%string; "no"%string] "1.zip.mp4" _).
  repeat constructor.
Defined.

(** X20. End to end for one file. Given a path whose normal form names a
    validly disguised regular file with the [.mp4] extension, whose new
    path is not a directory, and a first clear answer of Y or YES:
    [process_directory] reports one file found and one success, the new
    path names the restored bytes, the old path names nothing, every other
    path is untouched, and the lines typed after the answer are left
    unread. *)
Theorem process_directory_single_file
    (strip upper : string -> string)
    (rglob_mp4 : gmap string node -> PurePath.t -> list PurePath.t)
    (fs : gmap string node) (root_path : string) (data : list byte) (m : Z)
    (ignored : list string) (typed : string) (rest : list string) :
  let f := PurePath.str (PurePath.Path root_path) in
  fs !! f = Some (RegularFile data) ->
  lower (PurePath.suffix (PurePath.Path root_path)) = ".mp4"%string ->
  4 < len data ->
  bytes_to_int (trailer data) = Some m ->
  0 < m < len data - 4 ->
  (forall reported_size,
     fs !! remove_mp4_extension f <> Some (Directory reported_size)) ->
  Forall (fun t => accepts (upper (strip t)) = false /\
                   declines (upper (strip t)) = false) ignored ->
  accepts (upper (strip typed)) = true ->
  let run := process_directory strip upper rglob_mp4 fs
                               (ignored ++ typed :: rest) root_path in
  exists stats : gmap string Z,
    stats_returned run = Some stats /\
    stats !!! "total"%string = 1 /\ stats !!! "success"%string = 1 /\
    stats !!! "failed"%string = 0 /\
    files_finally run !! remove_mp4_extension f
      = Some (RegularFile (restored data m)) /\
    files_finally run !! f = None /\
    (forall other : string,
       other <> f -> other <> remove_mp4_extension f ->
       files_finally run !! other = fs !! other) /\
    inputs_left run = rest.
Proof.
  intros f Hfile Hmatch Hsize Hdec Hok Hdst Hall Hyes run. subst run.
  assert (Hnormal : PurePath.str (PurePath.Path f) = f)
    by apply Path_str_normal.
  assert (Hmatch_f : lower (PurePath.suffix (PurePath.Path f)) = ".mp4"%string)
    by (unfold f; now rewrite Path_str_suffix).
  pose proof (remove_mp4_extension_differs f Hmatch_f) as Hdiff.
  unfold process_directory, find_all_mp4_files. fold f.
  rewrite Hfile, Hmatch. cbn [String.eqb]. rewrite !Ascii.eqb_refl.
  unfold ask_confirmation.
  rewrite (confirm_loop_decides strip upper ignored typed rest Hall)
    by (now rewrite Hyes).
  rewrite Hyes. cbn [answer unread shown process_each].
  rewrite (process_file_renamed fs f data m Hnormal Hfile Hsize Hdec Hok Hdst).
  cbn [done said files_then stats_returned files_finally inputs_left].
  eexists. split; [reflexivity|].
  rewrite !increment_lookup. repeat case_decide; try congruence.
  destruct (total_stats_lookup (len [f])) as (Ht & Hs & Hf & _).
  rewrite Ht, Hs, Hf.
  split; [reflexivity|]. split; [reflexivity|]. split; [reflexivity|].
  split; [apply lookup_insert_eq|]. split.
  - rewrite lookup_insert_ne by assumption. apply lookup_delete_eq.
  - split; [|reflexivity]. intros other Hold Hnew.
    rewrite lookup_insert_ne, lookup_delete_ne, lookup_insert_ne by congruence.
    reflexivity.
Qed.

Lemma process_directory_single_file_witness :
  let data := [x10; x20; x30; x40; x02; x01; x02; x00; x00; x00] in
  let fs : gmap string node := {[ "d/1.zip.MP4"%string := RegularFile data ]} in
  let run := process_directory strip_ascii upper_ascii (fun _ _ => []) fs
                               ["what"%string; " Yes"%string; "n"%string]
                               "./d//1.zip.MP4" in
  exists stats : gmap string Z,
    stats_returned run = Some stats /\
    stats !!! "total"%string = 1 /\ stats !!! "success"%string = 1 /\
    stats !!! "failed"%string = 0 /\
    files_finally run !! "d/1.zip"%string = Some (RegularFile (restored data 2)) /\
    files_finally run !! "d/1.zip.MP4"%string = None /\
    (forall other : string,
       other <> "d/1.zip.MP4"%string -> other <> "d/1.zip"%string ->
       files_finally run !! other = fs !! other) /\
    inputs_left run = ["n"%string].
Proof.
  refine (process_directory_single_file strip_ascii upper_ascii (fun _ _ => [])
            {[ "d/1.zip.MP4"%string :=
                 RegularFile [x10; x20; x30; x40; x02; x01; x02; x00; x00; x00] ]}
            "./d//1.zip.MP4"
            [x10; x20; x30; x40; x02; x01; x02; x00; x00; x00] 2
            ["what"%string] " Yes" ["n"%string]
            eq_refl eq_refl _ eq_refl _ _ _ eq_refl).
  - reflexivity.
  - vm_compute. split; reflexivity.
  - intros sz. vm_compute. discriminate.
  - repeat constructor.
Defined.

(** ** The layout reveal_file accepts *)

Section Layout.

Lemma byte_of_Z_val (b : byte) (z : Z) : z mod 256 = byte_val b -> byte_of_Z z = b.
Proof.
  intros H. apply byte_val_inj. now rewrite byte_val_of_Z.
Qed.

Lemma littleEndian32_bytes_to_int (bs : list byte) (n : Z) :
  bytes_to_int bs = Some n -> littleEndian32 n = bs.
Proof.
  destruct bs as [|b0 [|b1 [|b2 [|b3 [|b4 bs]]]]]; try discriminate.
  cbn [bytes_to_int]. intros [= <-].
  pose proof (byte_val_range b0). pose proof (byte_val_range b1).
  pose proof (byte_val_range b2). pose proof (byte_val_range b3).
  unfold littleEndian32.
  rewrite (byte_of_Z_val b0), (byte_of_Z_val b1), (byte_of_Z_val b2),
    (byte_of_Z_val b3); [reflexivity | | | |];
    Z.div_mod_to_equations; lia.
Qed.

Lemma accepted_is_disguise (data : list byte) (m : Z) :
  bytes_to_int (trailer data) = Some m ->
  0 < m < len data - 4 ->
  data = disguise (first_n (len data - m - 4) data)
                  (reverse_byte_array (disguised_header data m)).
Proof.
  intros Hdec Hok. unfold disguise.
  rewrite len_reverse_byte_array, len_disguised_header by lia.
  unfold reverse_byte_array at 1. unfold reverse_byte_array at 1.
  rewrite reverse_involutive.
  rewrite (littleEndian32_bytes_to_int _ _ Hdec).
  unfold disguised_header, trailer, mask_length_indicator_length, first_n, skip.
  replace (len data - 4 - m) with (len data - m - 4) by lia.
  rewrite app_assoc, take_take_drop.
  replace (Z.to_nat (len data - 4))
    with (Z.to_nat (len data - m - 4) + Z.to_nat m)%nat by lia.
  now rewrite take_drop.
Qed.

End Layout.

(** X21. The files [reveal_file] restores are exactly the regular files
    laid out as [front || reverse(head) || littleEndian32(len(head))] with
    [front] and [head] not empty and [len(head) < 2^32]; then [head] is what
    the call writes over the start of the file. *)
Theorem reveal_file_accepts_disguises (fs : gmap string node) (file_path : string) :
  returned (reveal_file fs file_path) = true <->
  exists front head : list byte,
    fs !! file_path = Some (RegularFile (disguise front head)) /\
    0 < len front /\ 0 < len head < 4294967296.
Proof.
  split.
  - intros Hret.
    destruct (reveal_file_run fs file_path) as [| | | |data m Hfile Hsize Hdec Hok];
      cbn [returned] in Hret; try discriminate.
    exists (first_n (len data - m - 4) data),
           (reverse_byte_array (disguised_header data m)).
    rewrite <- (accepted_is_disguise data m Hdec Hok).
    split; [exact Hfile|].
    rewrite len_reverse_byte_array, len_disguised_header, len_first_n by lia.
    destruct (bytes_to_int_four (trailer data)) as (m' & Hm' & Hrange);
      [apply len_trailer; lia|].
    assert (m' = m) by congruence. lia.
  - intros (front & head & Hfile & Hfront & Hhead).
    rewrite (reveal_file_restored fs file_path _ (len head) Hfile);
      [reflexivity | | |]; rewrite ?len_disguise; try lia.
    rewrite trailer_disguise. apply bytes_to_int_littleEndian32. lia.
Qed.
